(** * spl_scraper: regions, cities and districts of the SPL map service

    A shallow embedding of [spl_scraper.py] and the properties of its pipeline
    (region catalog -> cities -> districts -> JSON document -> workbook).

    Conventions of the embedding:
    - a Python [str] is a [string], one element per character (characters with
      code points below 256);
    - Python values that travel through JSON are [pyval]s; a [dict] is an
      association list in insertion order;
    - an exception is a [Raise] of the monad [M], which also collects the
      records handed to the module's logger;
    - the network and the file system are explicit arguments. *)

From stdpp Require Import base numbers list strings gmap pretty sorting.
From Stdlib Require Import Ascii QArith Qround.

Local Open Scope Z_scope.

(** ** Exceptions, log records and the monad of the script *)

Inductive exn :=
| KeyError
| TypeError
| ValueError
| AttributeError
| JSONDecodeError
| FileNotFoundError
| UnicodeDecodeError
| IllegalCharacterError.

Inductive result (A : Type) :=
| Ok (a : A)
| Raise (e : exn).
Arguments Ok {A} a.
Arguments Raise {A} e.

Definition rbind {A B} (r : result A) (f : A -> result B) : result B :=
  match r with
  | Ok a => f a
  | Raise e => Raise e
  end.

Notation "'let?' x ':=' r 'in' k" := (rbind r (fun x => k))
  (at level 10, x name, r at level 100, k at level 200).

Fixpoint rmap {A B} (f : A -> result B) (l : list A) : result (list B) :=
  match l with
  | [] => Ok []
  | x :: l' =>
      let? y := f x in
      let? ys := rmap f l' in
      Ok (y :: ys)
  end.

(** ** Python values *)

#[warnings="-register-all"]
Inductive pyval :=
| PNone
| PBool (b : bool)
| PInt (z : Z)
| PStr (s : string)
| PList (l : list pyval)
| PDict (d : list (string * pyval)).

(** What the script passes to [_logger]: level and payload of each call. *)
Inductive logrec :=
| LogException (e : exn)                         (* _logger.exception(ex) *)
| LogScrapedRegions (n : nat)                    (* info, main *)
| LogScrapedCities (n : nat)                     (* info, get_cities *)
| LogScrapedDistricts (n : nat) (city_id : pyval) (* info, get_districts *)
| LogMissingRegion (city : pyval).               (* warning, get_cities *)

Definition M (A : Type) : Type := list logrec * result A.

Definition ret {A} (a : A) : M A := ([], Ok a).
Definition raise {A} (e : exn) : M A := ([], Raise e).
Definition emit (r : logrec) : M unit := ([r], Ok tt).
Definition lift {A} (r : result A) : M A := ([], r).
Definition bind {A B} (m : M A) (f : A -> M B) : M B :=
  match m with
  | (l, Ok a) => let '(l', r) := f a in (l ++ l', r)
  | (l, Raise e) => (l, Raise e)
  end.

Notation "'let!' x ':=' m 'in' k" := (bind m (fun x => k))
  (at level 10, x name, m at level 100, k at level 200).
Notation "'do!' m 'in' k" := (bind m (fun _ => k))
  (at level 10, m at level 100, k at level 200).

Definition logs {A} (m : M A) : list logrec := fst m.
Definition outcome {A} (m : M A) : result A := snd m.

(** ** Dictionaries in insertion order *)

Section dict.
Context {V : Type}.

Fixpoint dict_get (k : string) (d : list (string * V)) : option V :=
  match d with
  | [] => None
  | (k', v) :: d' => if decide (k = k') then Some v else dict_get k d'
  end.

(** [d[k] = v]: an existing key keeps its place, a new one goes last. *)
Fixpoint dict_set (k : string) (v : V) (d : list (string * V))
  : list (string * V) :=
  match d with
  | [] => [(k, v)]
  | (k', v') :: d' =>
      if decide (k = k') then (k', v) :: d' else (k', v') :: dict_set k v d'
  end.

Definition dict_mem (k : string) (d : list (string * V)) : bool :=
  match dict_get k d with Some _ => true | None => false end.

Definition dict_keys (d : list (string * V)) : list string := d.*1.

(** [d[k]] as an expression. *)
Definition dict_getitem (k : string) (d : list (string * V)) : result V :=
  match dict_get k d with Some v => Ok v | None => Raise KeyError end.
End dict.

(** ** Characters and the built-ins [str.strip], [int] and [str] *)

(** [str.isspace] on the characters below 256. *)
Definition py_isspace (c : ascii) : bool :=
  let n := Z.of_N (N_of_ascii c) in
  ((9 <=? n) && (n <=? 13)) || ((28 <=? n) && (n <=? 32))
  || (n =? 133) || (n =? 160).

Fixpoint lstrip (s : string) : string :=
  match s with
  | String c s' => if py_isspace c then lstrip s' else s
  | EmptyString => EmptyString
  end.

Definition rstrip (s : string) : string := String.rev (lstrip (String.rev s)).

(** [s.strip()] *)
Definition strip (s : string) : string := rstrip (lstrip s).

Definition digit_of (c : ascii) : option Z :=
  let n := Z.of_N (N_of_ascii c) in
  if (48 <=? n) && (n <=? 57) then Some (n - 48) else None.

(** Digits of a decimal literal after the first one: digits, each optionally
    preceded by one underscore. *)
Fixpoint int_digits (acc : Z) (s : string) : option Z :=
  match s with
  | EmptyString => Some acc
  | String c s' =>
      match digit_of c with
      | Some d => int_digits (10 * acc + d) s'
      | None =>
          if decide (c = "_"%char) then
            match s' with
            | String c' s'' =>
                match digit_of c' with
                | Some d => int_digits (10 * acc + d) s''
                | None => None
                end
            | EmptyString => None
            end
          else None
      end
  end.

Definition int_unsigned (s : string) : option Z :=
  match s with
  | String c s' =>
      match digit_of c with
      | Some d => int_digits d s'
      | None => None
      end
  | EmptyString => None
  end.

(** [int(s)] for a [str] argument, base ten: surrounding white space, an
    optional sign, digits with single underscores between them.  (The
    interpreter's configurable limit on the number of digits is not
    modelled.) *)
Definition py_int (s : string) : result Z :=
  let body := strip s in
  let parsed :=
    match body with
    | String "+" s' => int_unsigned s'
    | String "-" s' => Z.opp <$> int_unsigned s'
    | _ => int_unsigned body
    end in
  match parsed with
  | Some z => Ok z
  | None => Raise ValueError
  end.

(** [str(n)] for an [int]. *)
Definition str_of_int (z : Z) : string := pretty z.

(** ** Region catalog *)

Definition REGIONS : list (string * string) :=
  [ ("1", "Riyadh"); ("6", "Asir"); ("5", "Eastern"); ("8", "Hail");
    ("10", "Jazan"); ("3", "Madinah"); ("2", "Makkah");
    ("9", "Northern Borders"); ("4", "Al Qassim"); ("7", "Tabuk");
    ("11", "Najran"); ("12", "Al Bahah"); ("13", "Al Jawf") ].

Definition REGIONS_HTML : string := "regions_list.html".
Definition RESULTS_JSON : string := "region_cities_districts.json".
Definition RESULTS_EXCEL : string := "region_cities_districts.json".

(** An element as BeautifulSoup hands it over: its attributes and the text
    below it ([get_text()]). *)
Record Tag := mkTag {
  tag_attrs : list (string * string);
  tag_text : string
}.

(** The bundled snippet once read: whether the text read is non-empty, and
    what [BeautifulSoup(text, 'lxml').find_all('option')] finds in it. *)
Record Markup := mkMarkup {
  markup_nonempty : bool;
  markup_options : list Tag
}.

(** The loop of [get_regions] over the options, [regions] being the
    dictionary built so far.  Only [ValueError] is caught. *)
Fixpoint get_regions_loop (options : list Tag) (regions : list (string * string))
  : M (list (string * string)) :=
  match options with
  | [] => ret regions
  | option :: rest =>
      match dict_getitem "id" (tag_attrs option) with
      | Raise e => raise e
      | Ok a =>
          match py_int a with
          | Raise ValueError =>
              do! emit (LogException ValueError) in
              get_regions_loop rest regions
          | Raise e => raise e
          | Ok region_id =>
              get_regions_loop rest
                (dict_set (str_of_int region_id) (strip (tag_text option)) regions)
          end
      end
  end.

(** [get_regions(use_arabic)]; [html] is the content of [REGIONS_HTML] next
    to the script, [None] when the file does not exist. *)
Definition get_regions (html : option Markup) (use_arabic : bool)
  : M (list (string * string)) :=
  if negb use_arabic then ret REGIONS
  else
    match html with
    | Some regions_html =>
        if markup_nonempty regions_html
        then get_regions_loop (markup_options regions_html) []
        else ret []
    | None => ret []
    end.

(** ** More built-ins on values *)

(** Truth value of an object in a condition. *)
Definition py_truthy (v : pyval) : bool :=
  match v with
  | PNone => false
  | PBool b => b
  | PInt z => negb (z =? 0)
  | PStr s => negb (bool_decide (s = ""))
  | PList l => negb (bool_decide (length l = 0%nat))
  | PDict d => negb (bool_decide (length d = 0%nat))
  end.

(** [len(v)] *)
Definition py_len (v : pyval) : result nat :=
  match v with
  | PStr s => Ok (String.length s)
  | PList l => Ok (length l)
  | PDict d => Ok (length d)
  | _ => Raise TypeError
  end.

Fixpoint chars (s : string) : list string :=
  match s with
  | EmptyString => []
  | String c s' => String c EmptyString :: chars s'
  end.

(** The items a [for] loop or a comprehension draws from [v]. *)
Definition py_iter (v : pyval) : result (list pyval) :=
  match v with
  | PList l => Ok l
  | PDict d => Ok (PStr <$> dict_keys d)
  | PStr s => Ok (PStr <$> chars s)
  | _ => Raise TypeError
  end.

(** [v[k]] for a [str] key [k]. *)
Definition py_getitem (v : pyval) (k : string) : result pyval :=
  match v with
  | PDict d => dict_getitem k d
  | _ => Raise TypeError
  end.

(** Whether [hash(v)] is defined. *)
Definition py_hashable (v : pyval) : bool :=
  match v with
  | PList _ | PDict _ => false
  | _ => true
  end.

Definition hex_digit (n : Z) : ascii :=
  ascii_of_N (Z.to_N (if n <? 10 then 48 + n else 87 + n)).

(** [str.isprintable] on one character below 256. *)
Definition py_isprintable (c : ascii) : bool :=
  let n := Z.of_N (N_of_ascii c) in
  ((32 <=? n) && (n <=? 126)) || ((161 <=? n) && negb (n =? 173)).

Fixpoint string_mem (c : ascii) (s : string) : bool :=
  match s with
  | EmptyString => false
  | String c' s' => bool_decide (c = c') || string_mem c s'
  end.

Fixpoint repr_chars (quote : ascii) (s : string) : string :=
  match s with
  | EmptyString => EmptyString
  | String c s' =>
      let n := Z.of_N (N_of_ascii c) in
      (if bool_decide (c = quote) || bool_decide (c = "\"%char)
       then String "\" (String c EmptyString)
       else if n =? 9 then "\t"
       else if n =? 10 then "\n"
       else if n =? 13 then "\r"
       else if py_isprintable c then String c EmptyString
       else String "\" (String "x" (String (hex_digit (n / 16))
              (String (hex_digit (n mod 16)) EmptyString))))
      +:+ repr_chars quote s'
  end.

Definition double_quote : ascii := ascii_of_N 34.

(** [repr(s)] for a [str]. *)
Definition repr_str (s : string) : string :=
  let quote :=
    if string_mem "'" s && negb (string_mem double_quote s) then double_quote
    else "'"%char in
  String quote (repr_chars quote s +:+ String quote EmptyString).

Fixpoint join (sep : string) (l : list string) : string :=
  match l with
  | [] => ""
  | [x] => x
  | x :: l' => x +:+ sep +:+ join sep l'
  end.

(** [repr(v)] *)
Fixpoint py_repr (v : pyval) : string :=
  match v with
  | PNone => "None"
  | PBool true => "True"
  | PBool false => "False"
  | PInt z => str_of_int z
  | PStr s => repr_str s
  | PList l => "[" +:+ join ", " (map py_repr l) +:+ "]"
  | PDict d =>
      "{" +:+ join ", " (map (fun kv => repr_str kv.1 +:+ ": " +:+ py_repr kv.2) d)
      +:+ "}"
  end.

(** [str(v)] *)
Definition py_str (v : pyval) : string :=
  match v with
  | PStr s => s
  | _ => py_repr v
  end.

(** ** JSON documents and the texts that carry them *)

(** A JSON document as written: the members of an object in their written
    order, repeated names included. *)
#[warnings="-register-all"]
Inductive jdoc :=
| JNull
| JBool (b : bool)
| JNum (z : Z)
| JString (s : string)
| JArray (l : list jdoc)
| JObject (members : list (string * jdoc)).

(** A [str] on its way to [json.loads], by what the parser finds in it:
    nothing at all, something that is no JSON document, or a document. *)
Inductive text :=
| EmptyText
| Malformed
| JsonText (d : jdoc).

(** [if text:] *)
Definition text_nonempty (t : text) : bool :=
  match t with
  | EmptyText => false
  | _ => true
  end.

(** The [dict] that the parser builds from the members of an object: each
    member is stored in turn, so a repeated name keeps its first place and
    its last value. *)
Definition dict_of_members {V} (members : list (string * V)) : list (string * V) :=
  fold_left (fun d kv => dict_set kv.1 kv.2 d) members [].

(** The value [json.loads] returns for a document. *)
Fixpoint decode (d : jdoc) : pyval :=
  match d with
  | JNull => PNone
  | JBool b => PBool b
  | JNum z => PInt z
  | JString s => PStr s
  | JArray l => PList (map decode l)
  | JObject members =>
      PDict (dict_of_members (map (fun kv => (kv.1, decode kv.2)) members))
  end.

(** [json.loads(text)] *)
Definition json_loads (t : text) : result pyval :=
  match t with
  | JsonText d => Ok (decode d)
  | _ => Raise JSONDecodeError
  end.

(** The document [json.dumps] writes for a value: the items of a [dict] in
    their order. *)
Fixpoint encode (v : pyval) : jdoc :=
  match v with
  | PNone => JNull
  | PBool b => JBool b
  | PInt z => JNum z
  | PStr s => JString s
  | PList l => JArray (map encode l)
  | PDict d => JObject (map (fun kv => (kv.1, encode kv.2)) d)
  end.

(** [json.dumps(v)] *)
Definition json_dumps (v : pyval) : text := JsonText (encode v).

(** ** Sequencing over lists *)

(** Runs [f] on the items in order and stops at the first exception. *)
Fixpoint for_each {A B} (f : A -> M B) (l : list A) : M (list B) :=
  match l with
  | [] => ret []
  | x :: l' =>
      let! y := f x in
      let! ys := for_each f l' in
      ret (y :: ys)
  end.

(** ** District fetcher: one city *)

(** The service is an argument: [fetch city_id] is the text of the response
    to the request for the districts of [city_id].  Failures of the transport
    itself are outside the embedding. *)
Definition get_districts (fetch : pyval -> text) (city_id : pyval)
    (use_arabic : bool) : M (list (string * list pyval)) :=
  let! res := lift (json_loads (fetch city_id)) in
  let! n := lift (py_len res) in
  do! emit (LogScrapedDistricts n city_id) in
  if py_truthy res then
    let district_name_key :=
      if use_arabic then "ArabicName" else "EnglishName" in
    let! items := lift (py_iter res) in
    let! names :=
      for_each (fun district => lift (py_getitem district district_name_key))
               items in
    ret [(py_str city_id, names)]
  else ret [].

(** ** City fetcher *)

(** The [city_data] dictionaries, with their three keys. *)
Record City := mkCity {
  name : pyval;
  id : pyval;
  districts : list pyval
}.

(** [key in regions] for a catalog keyed by [str]. *)
Definition catalog_contains (key : pyval) (regions : list (string * string))
  : result bool :=
  match key with
  | PStr k => Ok (dict_mem k regions)
  | PList _ | PDict _ => Raise TypeError
  | _ => Ok false
  end.

(** [regions[key]] *)
Definition catalog_getitem (key : pyval) (regions : list (string * string))
  : result string :=
  match key with
  | PStr k => dict_getitem k regions
  | PList _ | PDict _ => Raise TypeError
  | _ => Raise KeyError
  end.

Fixpoint get_cities_loop (regions : list (string * string)) (use_arabic : bool)
    (data : list pyval) (region_city_mapping : list (string * list City))
  : M (list (string * list City)) :=
  match data with
  | [] => ret region_city_mapping
  | city :: rest =>
      let! fk := lift (py_getitem city "fkEmirateID") in
      let! known := lift (catalog_contains fk regions) in
      if known then
        let! region_name := lift (catalog_getitem fk regions) in
        let! city_name :=
          lift (py_getitem city
                  (if use_arabic then "ArabicName" else "EnglishName")) in
        let! pk := lift (py_getitem city "pkCityID") in
        let city_data := {| name := city_name; id := pk; districts := [] |} in
        get_cities_loop regions use_arabic rest
          (match dict_get region_name region_city_mapping with
           | Some cities =>
               dict_set region_name (cities ++ [city_data]) region_city_mapping
           | None => dict_set region_name [city_data] region_city_mapping
           end)
      else
        do! emit (LogMissingRegion city) in
        get_cities_loop regions use_arabic rest region_city_mapping
  end.

(** [get_cities(regions, use_arabic)]; [response] is the text the listing
    endpoint answers with.  The function returns the mapping only from inside
    [if text:], so an empty text makes it return [None]. *)
Definition get_cities (response : text) (regions : list (string * string))
    (use_arabic : bool) : M (option (list (string * list City))) :=
  if text_nonempty response then
    let! data := lift (json_loads response) in
    let! n := lift (py_len data) in
    do! emit (LogScrapedCities n) in
    let! items := lift (py_iter data) in
    let! region_city_mapping := get_cities_loop regions use_arabic items [] in
    ret (Some region_city_mapping)
  else ret None.

(** ** District fetcher: merge *)

(** The dictionary comprehension over the gathered results. *)
Definition merge_results (get_districts_res : list (list (string * list pyval)))
  : list (string * list pyval) :=
  fold_left
    (fun merged city_dist =>
       fold_left
         (fun merged kv =>
            if negb (bool_decide (length city_dist = 0%nat))
            then dict_set kv.1 kv.2 merged else merged)
         city_dist merged)
    get_districts_res [].

(** [merged_districts.get(key, [])] *)
Definition merged_get (key : pyval) (merged_districts : list (string * list pyval))
  : result (list pyval) :=
  match key with
  | PStr k => Ok (default [] (dict_get k merged_districts))
  | PList _ | PDict _ => Raise TypeError
  | _ => Ok []
  end.

(** The body of the loop of [get_and_merge_districts] for one region.  The
    requests of a region are gathered; here they run one after the other in
    the order of the cities, and the first exception in that order is the one
    that is raised. *)
Definition merge_region (fetch : pyval -> text) (cities : list City)
  : M (list City) :=
  let! get_districts_res :=
    for_each (fun city => get_districts fetch (id city) true) cities in
  let merged_districts := merge_results get_districts_res in
  for_each
    (fun city =>
       let! dists := lift (merged_get (id city) merged_districts) in
       ret {| name := name city; id := id city; districts := dists |})
    cities.

(** [get_and_merge_districts(region_city_mapping)]; the argument is what
    [get_cities] returned, a dictionary or [None]. *)
Definition get_and_merge_districts (fetch : pyval -> text)
    (region_city_mapping : option (list (string * list City)))
  : M (list (string * list City)) :=
  match region_city_mapping with
  | None => raise AttributeError
  | Some mapping =>
      for_each
        (fun rc =>
           let! cities := merge_region fetch rc.2 in
           ret (rc.1, cities))
        mapping
  end.

(** ** Workbook *)

Record Font := mkFont {
  bold : bool;
  size : Z
}.

(** The font of a cell that was given none. *)
Definition DEFAULT_FONT : Font := {| bold := false; size := 11 |}.

Record Cell := mkCell {
  value : pyval;
  font : Font
}.

(** A worksheet: its title, its cells by (row, column), and the widths that
    were set in [column_dimensions], by column letter. *)
Record Sheet := mkSheet {
  title : string;
  cells : gmap (Z * Z) Cell;
  column_width : gmap string Q
}.

Definition new_sheet (title : string) : Sheet :=
  {| title := title; cells := ∅; column_width := ∅ |}.

(** [Workbook()] comes with one sheet. *)
Definition new_workbook : list Sheet := [new_sheet "Sheet"].

(** [workbook.create_sheet(title, index)], as [list.insert] places it.  The
    checks the library runs on titles are not modelled. *)
Definition insert_sheet (index : Z) (sheet : Sheet) (workbook : list Sheet)
  : list Sheet :=
  let i := Z.to_nat index in
  take i workbook ++ sheet :: drop i workbook.

Fixpoint column_letters (fuel : nat) (col_idx : Z) (acc : string) : string :=
  match fuel with
  | O => acc
  | S fuel' =>
      if col_idx <=? 0 then acc
      else
        let q := col_idx / 26 in
        let r := col_idx mod 26 in
        let q' := if r =? 0 then q - 1 else q in
        let r' := if r =? 0 then 26 else r in
        column_letters fuel' q' (String (ascii_of_N (Z.to_N (r' + 64))) acc)
  end.

(** [get_column_letter(col_idx)]: "A" for 1 up to "ZZZ" for 18278. *)
Definition get_column_letter (col_idx : Z) : result string :=
  if (1 <=? col_idx) && (col_idx <=? 18278)
  then Ok (column_letters 3 col_idx "")
  else Raise ValueError.

(** Characters a cell refuses. *)
Definition illegal_character (c : ascii) : bool :=
  let n := Z.of_N (N_of_ascii c) in
  (n <=? 8) || ((11 <=? n) && (n <=? 12)) || ((14 <=? n) && (n <=? 31)).

Fixpoint string_exists (p : ascii -> bool) (s : string) : bool :=
  match s with
  | EmptyString => false
  | String c s' => p c || string_exists p s'
  end.

Definition MAX_CELL_LENGTH : nat := Z.to_nat 32767.

(** What a cell keeps of a [str]: at most 32767 characters, none illegal. *)
Definition check_string (s : string) : result string :=
  let v := String.substring 0 MAX_CELL_LENGTH s in
  if string_exists illegal_character v then Raise IllegalCharacterError
  else Ok v.

(** What [cell.value = v] stores. *)
Definition bind_value (v : pyval) : result pyval :=
  match v with
  | PStr s => let? s' := check_string s in Ok (PStr s')
  | PList _ | PDict _ => Raise ValueError
  | _ => Ok v
  end.

(** [sheet.cell(row=row, column=column, value=v)]: the cell is created if it
    is not there, and takes the value unless it is [None]. *)
Definition sheet_cell (sheet : Sheet) (row column : Z) (v : pyval)
  : result Sheet :=
  if (row <? 1) || (column <? 1) then Raise ValueError
  else
    let cell := default {| value := PNone; font := DEFAULT_FONT |}
                        (cells sheet !! (row, column)) in
    let? cell' :=
      match v with
      | PNone => Ok cell
      | _ => let? stored := bind_value v in
             Ok {| value := stored; font := font cell |}
      end in
    Ok {| title := title sheet;
          cells := <[(row, column) := cell']> (cells sheet);
          column_width := column_width sheet |}.

(** [cell.font = f] for the cell at (row, column). *)
Definition set_font (sheet : Sheet) (row column : Z) (f : Font) : Sheet :=
  {| title := title sheet;
     cells := alter (fun c => {| value := value c; font := f |})
                    (row, column) (cells sheet);
     column_width := column_width sheet |}.

(** [sheet.column_dimensions[letter].width = w] *)
Definition set_width (sheet : Sheet) (letter : string) (w : Q) : Sheet :=
  {| title := title sheet;
     cells := cells sheet;
     column_width := <[letter := w]> (column_width sheet) |}.

(** ** Exporter *)

(** [round(q)]: to the nearest integer, a tie to the even one. *)
Definition py_round (q : Q) : Z :=
  let f := Qfloor q in
  match Qcompare (q - inject_Z f) (1 # 2) with
  | Lt => f
  | Gt => f + 1
  | Eq => if Z.even f then f else f + 1
  end.

Definition Qgtb (a b : Q) : bool :=
  match Qcompare a b with Gt => true | _ => false end.

(** [sorted(l, key=..., reverse=True)] once the keys are computed: larger
    keys first, equal keys in their original order. *)
Fixpoint insert_desc {A} (x : nat * A) (l : list (nat * A)) : list (nat * A) :=
  match l with
  | [] => [x]
  | y :: l' =>
      if (y.1 <=? x.1)%nat then x :: y :: l' else y :: insert_desc x l'
  end.

Definition sorted_desc {A} (l : list (nat * A)) : list (nat * A) :=
  foldr insert_desc [] l.

(** [x.get('districts', [])] *)
Definition get_districts_or_empty (x : pyval) : result pyval :=
  match x with
  | PDict d => Ok (default (PList []) (dict_get "districts" d))
  | _ => Raise AttributeError
  end.

(** The variables of the loop over the cities of one sheet. *)
Record Render := mkRender {
  sheet : Sheet;
  count : Z;
  city_column_max_len : Q;
  district_column_lens : gmap string Z
}.

(** The inner loop: the districts of one city, from column [col_idx] on. *)
Fixpoint write_districts (row col_idx : Z) (items : list pyval)
    (sheet : Sheet) (district_column_lens : gmap string Z)
  : result (Sheet * gmap string Z) :=
  match items with
  | [] => Ok (sheet, district_column_lens)
  | district :: rest =>
      let? sheet1 := sheet_cell sheet row col_idx district in
      let? col_letter := get_column_letter col_idx in
      let? n := py_len district in
      let district_len := Z.of_nat n in
      let stored := default 0 (district_column_lens !! col_letter) in
      let col_max_len := if stored =? 0 then district_len else stored in
      if (col_max_len <? district_len)
         || negb (bool_decide (is_Some (district_column_lens !! col_letter)))
      then
        write_districts row (col_idx + 1) rest
          (set_width sheet1 col_letter (inject_Z district_len))
          (<[col_letter := district_len]> district_column_lens)
      else
        write_districts row (col_idx + 1) rest sheet1 district_column_lens
  end.

(** One turn of the loop over the sorted cities. *)
Definition write_city (st : Render) (city : pyval) : result Render :=
  let? city_name := py_getitem city "name" in
  let? sheet1 := sheet_cell (sheet st) (count st) 1 city_name in
  let sheet2 := set_font sheet1 (count st) 1 {| bold := true; size := 12 |} in
  let? n := py_len city_name in
  let city_len := inject_Z (py_round (inject_Z (Z.of_nat n) * (12 # 10))) in
  let? first_letter := get_column_letter 1 in
  let grows := Qgtb city_len (city_column_max_len st) in
  let max_len := if grows then city_len else city_column_max_len st in
  let sheet3 := if grows then set_width sheet2 first_letter max_len else sheet2 in
  let? ds := py_getitem city "districts" in
  let? items := py_iter ds in
  let? written :=
    write_districts (count st) 2 items sheet3 (district_column_lens st) in
  Ok {| sheet := written.1;
        count := count st + 1;
        city_column_max_len := max_len;
        district_column_lens := written.2 |}.

Fixpoint write_cities (st : Render) (cities : list pyval) : result Render :=
  match cities with
  | [] => Ok st
  | city :: rest =>
      let? st' := write_city st city in
      write_cities st' rest
  end.

(** The rows of a sheet: the cities by decreasing number of districts. *)
Definition sort_cities (cities : pyval) : result (list pyval) :=
  let? items := py_iter cities in
  let? keyed :=
    rmap (fun x =>
            let? ds := get_districts_or_empty x in
            let? n := py_len ds in
            Ok (n, x))
         items in
  Ok ((sorted_desc keyed).*2).

(** The body of the loop over the regions: the sheet of one region. *)
Definition render_sheet (region : string) (cities : pyval) : result Sheet :=
  let? first_letter := get_column_letter 1 in
  let st := {| sheet := set_width (new_sheet region) first_letter (12 # 10);
               count := 1;
               city_column_max_len := 12 # 10;
               district_column_lens := ∅ |} in
  let? sorted_cities := sort_cities cities in
  let? st' := write_cities st sorted_cities in
  Ok (sheet st').

(** [data.items()] *)
Definition py_items (v : pyval) : result (list (string * pyval)) :=
  match v with
  | PDict d => Ok d
  | _ => Raise AttributeError
  end.

Fixpoint render_regions (idx : Z) (items : list (string * pyval))
    (workbook : list Sheet) : result (list Sheet) :=
  match items with
  | [] => Ok workbook
  | (region, cities) :: rest =>
      let? sheet := render_sheet region cities in
      render_regions (idx + 1) rest (insert_sheet (idx - 1) sheet workbook)
  end.

(** What a path of the file system holds. *)
Inductive File :=
| TextFile (t : text)
| WorkbookFile (workbook : list Sheet).

(** [save_to_excel(save_path, json_source)] on the file system [fs]. *)
Definition save_to_excel (fs : gmap string File) (save_path json_source : string)
  : result (gmap string File) :=
  let workbook := new_workbook in
  match fs !! json_source with
  | None => Raise FileNotFoundError
  | Some (WorkbookFile _) => Raise UnicodeDecodeError
  | Some (TextFile t) =>
      let? region_data_citi_final := json_loads t in
      let? items := py_items region_data_citi_final in
      let? workbook' := render_regions 1 items workbook in
      Ok (<[save_path := WorkbookFile workbook']> fs)
  end.

(** ** The pipeline *)

Definition city_to_py (c : City) : pyval :=
  PDict [("name", name c); ("id", id c); ("districts", PList (districts c))].

(** The region -> cities dictionary as the value it is. *)
Definition mapping_to_py (m : list (string * list City)) : pyval :=
  PDict (map (fun rc => (rc.1, PList (map city_to_py rc.2))) m).

(** [parent / name] *)
Definition path_join (parent name : string) : string := parent +:+ "/" +:+ name.

(** What a run finds around it. *)
Record Env := mkEnv {
  env_parent : string;                 (* directory of the script *)
  env_regions_html : option Markup;    (* REGIONS_HTML in it, if any *)
  env_cities : text;                   (* answer of Home/GetCities *)
  env_districts : pyval -> text        (* answers of Home/GetDistricts *)
}.

Definition main (env : Env) (fs : gmap string File) : M (gmap string File) :=
  let! regions := get_regions (env_regions_html env) true in
  do! emit (LogScrapedRegions (length regions)) in
  let! region_city_mapping := get_cities (env_cities env) regions true in
  let! res_data := get_and_merge_districts (env_districts env) region_city_mapping in
  let parent := env_parent env in
  let json_results_path := path_join parent RESULTS_JSON in
  let fs1 := <[json_results_path := TextFile (json_dumps (mapping_to_py res_data))]> fs in
  let excel_results_path := path_join parent RESULTS_EXCEL in
  lift (save_to_excel fs1 excel_results_path json_results_path).

(** ** Sample data *)

Module Sample.
Definition district (arabic english : string) : jdoc :=
  JObject [("ArabicName", JString arabic); ("EnglishName", JString english)].

Definition city (pk fk : jdoc) (arabic english : string) : jdoc :=
  JObject [("pkCityID", pk); ("fkEmirateID", fk);
           ("ArabicName", JString arabic); ("EnglishName", JString english)].

(** Two options of the snippet, then one without [id], then one more. *)
Definition options_lacking_id : list Tag :=
  [ mkTag [("id", "1")] " Riyadh ";
    mkTag [("id", "2")] "Makkah";
    mkTag [("value", "3")] "Madinah";
    mkTag [("id", "4")] "Al Qassim" ].

(** Options that all carry an [id]; two of them are not numbers and two
    carry the same number. *)
Definition options_mixed : list Tag :=
  [ mkTag [("id", "1")] " Riyadh ";
    mkTag [("id", "x2")] "Makkah";
    mkTag [("id", " 03 ")] "Madinah";
    mkTag [("id", "")] "Nowhere";
    mkTag [("id", "3")] "Medina" ].

(** A listing whose first city carries a number as its id. *)
Definition listing : text :=
  JsonText (JArray
    [ city (JNum 3) (JString "1") "ar-three" "en-three";
      city (JString "4") (JString "2") "ar-four" "en-four";
      city (JString "5") (JString "99") "ar-five" "en-five";
      city (JString "7") (JString "1") "ar-seven" "en-seven" ]).

(** Every city has the two districts "a<id>" and "b<id>" in Arabic, and
    "e<id>" and "f<id>" in English. *)
Definition two_districts (city_id : pyval) : text :=
  JsonText (JArray
    [ district ("a" +:+ py_str city_id) ("e" +:+ py_str city_id);
      district ("b" +:+ py_str city_id) ("f" +:+ py_str city_id) ]).



Definition env : Env :=
  {| env_parent := "/srv/spl";
     env_regions_html := Some (mkMarkup true options_mixed);
     env_cities :=
       JsonText (JArray
         [ city (JString "7") (JString "1") "ar-seven" "en-seven";
           city (JString "8") (JString "3") "ar-eight" "en-eight";
           city (JString "9") (JString "1") "ar-nine" "en-nine" ]);
     env_districts := two_districts |}.
End Sample.

(** ** Notions used in the statements *)

(** The region a listed city belongs to: the name the catalog has for its
    [fkEmirateID], if it has one. *)
Definition region_of (regions : list (string * string)) (city : pyval)
  : option string :=
  match py_getitem city "fkEmirateID" with
  | Ok (PStr k) => dict_get k regions
  | _ => None
  end.

(** The record [get_cities] keeps of a listed city. *)
Definition city_data (use_arabic : bool) (city : pyval) : result City :=
  let? city_name :=
    py_getitem city (if use_arabic then "ArabicName" else "EnglishName") in
  let? pk := py_getitem city "pkCityID" in
  Ok {| name := city_name; id := pk; districts := [] |}.

(** A listed city the loop of [get_cities] gets through: an object with a
    hashable [fkEmirateID] and, if its region is known, a name in the chosen
    language and a [pkCityID]. *)
Definition listed_city (regions : list (string * string)) (use_arabic : bool)
    (city : pyval) : Prop :=
  (exists fk, py_getitem city "fkEmirateID" = Ok fk /\ py_hashable fk = true)
  /\ (is_Some (region_of regions city) ->
      exists c, city_data use_arabic city = Ok c).

(** Number of cities of a mapping. *)
Definition city_count (m : list (string * list City)) : nat :=
  length (concat m.*2).


(** The cities of [Sample.listing], as [json.loads] returns them. *)
Definition sample_listing_data : list pyval :=
  match json_loads Sample.listing with
  | Ok (PList l) => l
  | _ => []
  end.



(** The option carries an [id] attribute. *)
Definition has_id (tag : Tag) : Prop :=
  is_Some (dict_get "id" (tag_attrs tag)).


(** A value that stands for a Python object: no dictionary in it has the
    same key twice. *)
Fixpoint py_wf (v : pyval) : bool :=
  match v with
  | PList l => forallb py_wf l
  | PDict d => bool_decide (NoDup d.*1) && forallb (fun kv => py_wf kv.2) d
  | _ => true
  end.


(** What the pipeline of [Sample.env] hands to the exporter. *)
Definition sample_res_data : list (string * list City) :=
  match
    outcome (let! regions := get_regions (env_regions_html Sample.env) true in
             let! m := get_cities (env_cities Sample.env) regions true in
             get_and_merge_districts (env_districts Sample.env) m)
  with
  | Ok res_data => res_data
  | Raise _ => []
  end.


(** What a district response holds in the language chosen: the value of
    that name field of each item. *)
Definition district_names (use_arabic : bool) (response : text)
  : result (list pyval) :=
  let? res := json_loads response in
  let? items := py_iter res in
  rmap (fun district =>
          py_getitem district
            (if use_arabic then "ArabicName" else "EnglishName"))
       items.


(** The index of the column a letter names (inverse of the letters). *)
Fixpoint column_index_go (acc : Z) (letters : string) : Z :=
  match letters with
  | EmptyString => acc
  | String c rest => column_index_go (26 * acc + (Z.of_N (N_of_ascii c) - 64)) rest
  end.

Definition column_index_from_string (letters : string) : Z :=
  column_index_go 0 letters.


(** A text that a cell stores as it stands: at most 32767 characters and no
    illegal character. *)
Definition cell_text (s : string) : Prop := check_string s = Ok s.

(** A city object as the exporter reads it: its name is the text [n] and
    its districts are the texts [ds]. *)
Definition city_row (city : pyval) (n : string) (ds : list string) : Prop :=
  py_getitem city "name" = Ok (PStr n)
  /\ py_getitem city "districts" = Ok (PList (PStr <$> ds)).

(** A city that fits in a sheet: the texts are cell texts and the districts
    fit in the columns from the second one on. *)
Definition fits_row (n : string) (ds : list string) : Prop :=
  cell_text n /\ Forall cell_text ds /\ Z.of_nat (length ds) <= 18277.

(** The entry of [district_column_lens] for a column after a district of
    length [district_len] was written in it. *)
Definition widen (stored : option Z) (district_len : Z) : option Z :=
  match stored with
  | None => Some district_len
  | Some v =>
      if (if v =? 0 then district_len else v) <? district_len
      then Some district_len
      else Some v
  end.

(** A cell that was never written. *)
Definition blank_cell : Cell := {| value := PNone; font := DEFAULT_FONT |}.


(** [round(len(name) * 1.2)] *)
Definition city_len (n : string) : Z :=
  py_round (inject_Z (Z.of_nat (String.length n)) * (12 # 10)).

(** What holds of the loop variables between two cities: the rows from
    [count] on are empty, the width of the first column is
    [city_column_max_len], and the width of any other column is its entry in
    [district_column_lens]. *)
Definition render_inv (st : Render) : Prop :=
  1 <= count st
  /\ (forall r c, count st <= r -> cells (sheet st) !! (r, c) = None)
  /\ district_column_lens st !! "A" = None
  /\ column_width (sheet st) !! "A" = Some (city_column_max_len st)
  /\ (forall letter, letter <> "A" ->
        column_width (sheet st) !! letter
        = inject_Z <$> (district_column_lens st !! letter)).

(** The state in which the loop over the cities of a region starts. *)
Definition render_start (region : string) : Render :=
  {| sheet := set_width (new_sheet region) "A" (12 # 10);
     count := 1;
     city_column_max_len := 12 # 10;
     district_column_lens := ∅ |}.


(** [city_column_max_len] after the cities [rows], from [start]. *)
Definition first_column_len (rows : list (string * list string)) (start : Q) : Q :=
  fold_left
    (fun acc r =>
       if Qgtb (inject_Z (city_len r.1)) acc then inject_Z (city_len r.1) else acc)
    rows start.

(** The entry of [district_column_lens] for the column of the districts at
    position [k], after the cities [rows], from [start]. *)
Definition district_column_len (k : nat) (rows : list (string * list string))
    (start : option Z) : option Z :=
  fold_left
    (fun acc r =>
       match r.2 !! k with
       | Some d => widen acc (Z.of_nat (String.length d))
       | None => acc
       end)
    rows start.

(** The objects [cities] are cities with the names and districts [rows],
    and each fits in a sheet. *)
Definition city_rows (cities : list pyval) (rows : list (string * list string))
  : Prop :=
  Forall2 (fun city r => city_row city r.1 r.2 /\ fits_row r.1 r.2) cities rows.


(** The cities of a sheet in the order of its rows. *)
Definition sorted_rows (rows : list (string * list string))
  : list (string * list string) :=
  (sorted_desc (map (fun r => (length r.2, r)) rows)).*2.


(** The scenario of the spec: region "Riyadh" with City B (one district)
    listed before City A (three districts). *)
Definition sample_city_a : pyval :=
  PDict [("name", PStr "City A"); ("id", PStr "1");
         ("districts", PList [PStr "Olaya"; PStr "Malaz"; PStr "Naseem"])].

Definition sample_city_b : pyval :=
  PDict [("name", PStr "City B"); ("id", PStr "2");
         ("districts", PList [PStr "Rawdah"])].

Definition sample_rows : list (string * list string) :=
  [("City B", ["Rawdah"]); ("City A", ["Olaya"; "Malaz"; "Naseem"])].


(** A city whose first district has an empty name, and a city with one
    district of three letters. *)
Definition sample_city_x : pyval :=
  PDict [("name", PStr "X"); ("id", PStr "1");
         ("districts", PList [PStr ""; PStr "South"])].

Definition sample_city_y : pyval :=
  PDict [("name", PStr "Y"); ("id", PStr "2");
         ("districts", PList [PStr "Old"])].

Definition sample_rows_xy : list (string * list string) :=
  [("Y", ["Old"]); ("X", [""; "South"])].





(** The names of a list in the order in which a dictionary receives them as
    keys: each name at its first occurrence. *)
Definition first_seen_from (seen names : list string) : list string :=
  fold_left (fun seen r => if decide (r ∈ seen) then seen else seen ++ [r])
            names seen.

Definition first_seen (names : list string) : list string :=
  first_seen_from [] names.


(** The name field [get_districts] reads. *)
Definition district_name_key (use_arabic : bool) : string :=
  if use_arabic then "ArabicName" else "EnglishName".


(** A value that a cell takes and whose length the exporter can measure:
    a text without illegal character among its first 32767 ones. *)
Definition writable_text (v : pyval) : Prop :=
  exists s stored, v = PStr s /\ check_string s = Ok stored.

(** A city that the exporter writes without raising: an object with a
    writable name and with [districts] that a loop draws writable texts
    from, no more than the columns from the second one on hold. *)
Definition writable_city (city : pyval) : Prop :=
  (exists city_name,
     py_getitem city "name" = Ok city_name /\ writable_text city_name)
  /\ exists ds items,
       py_getitem city "districts" = Ok ds
       /\ py_iter ds = Ok items
       /\ Forall writable_text items
       /\ Z.of_nat (length items) <= 18277.

(** A document that maps each region to the list of its cities. *)
Definition region_lists (regions : list (string * list pyval))
  : list (string * pyval) :=
  (fun rc => (rc.1, PList rc.2)) <$> regions.

(** A city of which the service gave no name ([null]). *)
Definition nameless_city : pyval :=
  PDict [("name", PNone); ("id", PStr "3");
         ("districts", PList [PStr "Rawdah"])].

(** A document with one region and its two cities, and the same with a
    nameless city in the second place. *)
Definition sample_regions : list (string * list pyval) :=
  [("Riyadh", [sample_city_b; sample_city_a])].

Definition nameless_regions : list (string * list pyval) :=
  [("Riyadh", [sample_city_b; nameless_city])].

(** A file system whose one file is the JSON text of a document. *)
Definition sample_fs (regions : list (string * list pyval)) : gmap string File :=
  <["in.json" := TextFile (json_dumps (PDict (region_lists regions)))]> ∅.



(** * Properties *)

(** ** City fetcher on an empty response *)

(** C9: on an empty response text [get_cities] returns [None], not an empty
    mapping; the merge stage is then handed [None], on which it fails with
    [AttributeError], and so does [main] once the catalog is loaded. *)
Theorem get_cities_empty_text_returns_None :
  forall (regions : list (string * string)) (use_arabic : bool)
         (fetch : pyval -> text),
    get_cities EmptyText regions use_arabic = ret None
    /\ outcome (let! m := get_cities EmptyText regions use_arabic in
                get_and_merge_districts fetch m) = Raise AttributeError
    /\ forall parent html fs regs,
         outcome (get_regions html true) = Ok regs ->
         outcome (main (mkEnv parent html EmptyText fetch) fs)
         = Raise AttributeError.
Proof.
  intros regions use_arabic fetch. split; [reflexivity|]. split; [reflexivity|].
  intros parent html fs regs Hregs. unfold main. simpl.
  destruct (get_regions html true) as [l [regs'|e]]; simpl in *; [|discriminate].
  reflexivity.
Qed.

Lemma get_cities_empty_text_returns_None_witness :
  get_cities EmptyText REGIONS true = ret None
  /\ outcome (main (mkEnv "/srv/spl" None EmptyText Sample.two_districts) ∅)
     = Raise AttributeError.
Proof.
  destruct (get_cities_empty_text_returns_None REGIONS true Sample.two_districts)
    as (H1 & _ & H3).
  split; [exact H1|].
  apply (H3 "/srv/spl" None ∅ []). reflexivity.
Defined.

(** ** District merge and the type of the city id *)

(** An id that is not a [str] never finds its districts again: they were
    stored under [str(city_id)]. *)
Lemma merged_get_not_str (key : pyval) (merged : list (string * list pyval)) :
  py_hashable key = true ->
  (forall s, key <> PStr s) ->
  merged_get key merged = Ok [].
Proof.
  intros Hh Hs. destruct key; try reflexivity; try discriminate.
  exfalso. eapply Hs. reflexivity.
Qed.

(** C1: the listing gives city "ar-three" the number 3 as id; its own fetch
    returns the districts a3 and b3, stored under the key "3"; the merge looks
    up the number 3 and leaves the city with no district, where the claim
    promises a3 and b3.  City "7", whose id is a [str], gets its two. *)
Theorem merge_loses_districts_of_numeric_id :
  get_districts Sample.two_districts (PInt 3) true
  = ([LogScrapedDistricts 2 (PInt 3)], Ok [("3", [PStr "a3"; PStr "b3"])])
  /\ outcome (let! m := get_cities Sample.listing REGIONS true in
              get_and_merge_districts Sample.two_districts m)
     = Ok [ ("Riyadh",
             [ {| name := PStr "ar-three"; id := PInt 3; districts := [] |};
               {| name := PStr "ar-seven"; id := PStr "7";
                  districts := [PStr "a7"; PStr "b7"] |} ]);
            ("Makkah",
             [ {| name := PStr "ar-four"; id := PStr "4";
                  districts := [PStr "a4"; PStr "b4"] |} ]) ].
Proof. split; vm_compute; reflexivity. Qed.

(** ** Laws of the monad and of dictionaries *)

Arguments bind : simpl never.
Arguments lift : simpl never.
Arguments emit : simpl never.

Lemma bind_lift_Ok {A B} (a : A) (f : A -> M B) : bind (lift (Ok a)) f = f a.
Proof. unfold bind, lift. destruct (f a); reflexivity. Qed.

Lemma bind_ret {A B} (a : A) (f : A -> M B) : bind (ret a) f = f a.
Proof. apply bind_lift_Ok. Qed.

Lemma bind_lift_Raise {A B} (e : exn) (f : A -> M B) :
  bind (lift (Raise e)) f = ([], Raise e).
Proof. reflexivity. Qed.

Lemma bind_emit {B} (r : logrec) (f : unit -> M B) :
  bind (emit r) f = (r :: logs (f tt), outcome (f tt)).
Proof. unfold bind, emit. destruct (f tt); reflexivity. Qed.

Lemma bind_pair {A B} (l : list logrec) (a : A) (f : A -> M B) :
  bind (l, Ok a) f = (l ++ logs (f a), outcome (f a)).
Proof. unfold bind. destruct (f a); reflexivity. Qed.

Section dict_facts.
Context {V : Type}.
Implicit Types (d : list (string * V)) (k : string) (v : V).

Lemma dict_get_set_eq k v d : dict_get k (dict_set k v d) = Some v.
Proof.
  induction d as [|[k' v'] d IH]; simpl.
  - rewrite decide_True by done. done.
  - destruct (decide (k = k')) as [->|Hne]; simpl.
    + rewrite decide_True by done. done.
    + rewrite decide_False by done. done.
Qed.

Lemma dict_get_set_ne k k' v d :
  k <> k' -> dict_get k' (dict_set k v d) = dict_get k' d.
Proof.
  intros Hne. induction d as [|[k0 v0] d IH]; simpl.
  - rewrite decide_False by done. done.
  - destruct (decide (k = k0)) as [->|Hne0]; simpl.
    + rewrite !decide_False by done. done.
    + destruct (decide (k' = k0)); done.
Qed.

Lemma dict_get_None k d : dict_get k d = None <-> k ∉ d.*1.
Proof.
  induction d as [|[k' v'] d IH]; simpl.
  - split; [intros _; apply not_elem_of_nil | done].
  - rewrite not_elem_of_cons. destruct (decide (k = k')) as [->|Hne].
    + split; [done | intros [? _]; done].
    + rewrite IH. tauto.
Qed.

Lemma dict_get_Some_elem k v d : dict_get k d = Some v -> (k, v) ∈ d.
Proof.
  induction d as [|[k' v'] d IH]; simpl; [done|].
  destruct (decide (k = k')) as [->|Hne].
  - intros [= ->]. apply list_elem_of_here.
  - intros H. apply list_elem_of_further. auto.
Qed.

Lemma dict_get_is_Some k d : is_Some (dict_get k d) <-> k ∈ d.*1.
Proof.
  destruct (dict_get k d) eqn:E.
  - split; [intros _ | eauto].
    apply dict_get_Some_elem in E. apply list_elem_of_fmap. by exists (k, v).
  - apply dict_get_None in E. split; [intros [? ?]; done | done].
Qed.

Lemma dict_set_keys_old k v d : k ∈ d.*1 -> (dict_set k v d).*1 = d.*1.
Proof.
  induction d as [|[k' v'] d IH]; simpl.
  - intros H. by apply elem_of_nil in H.
  - intros H. destruct (decide (k = k')) as [->|Hne]; simpl; [done|].
    f_equal. apply IH. apply elem_of_cons in H as [?|?]; done.
Qed.

Lemma dict_set_keys_new k v d : k ∉ d.*1 -> (dict_set k v d).*1 = d.*1 ++ [k].
Proof.
  induction d as [|[k' v'] d IH]; simpl; [done|].
  intros H. apply not_elem_of_cons in H as [Hne H].
  rewrite decide_False by done. simpl. f_equal. auto.
Qed.

Lemma dict_set_NoDup k v d : NoDup d.*1 -> NoDup (dict_set k v d).*1.
Proof.
  intros Hnd. destruct (decide (k ∈ d.*1)) as [Hin|Hnin].
  - by rewrite dict_set_keys_old.
  - rewrite dict_set_keys_new by done. apply NoDup_app. split; [done|].
    split; [|apply NoDup_singleton].
    intros x Hx Hk. apply list_elem_of_singleton in Hk as ->. done.
Qed.

Lemma dict_set_fresh k v d : k ∉ d.*1 -> dict_set k v d = d ++ [(k, v)].
Proof.
  induction d as [|[k' v'] d IH]; simpl; [done|].
  intros H. apply not_elem_of_cons in H as [Hne H].
  rewrite decide_False by done. f_equal. auto.
Qed.

Lemma dict_of_members_acc (l acc : list (string * V)) :
  NoDup (acc ++ l).*1 ->
  fold_left (fun d kv => dict_set kv.1 kv.2 d) l acc = acc ++ l.
Proof.
  revert acc. induction l as [|[k v] l IH]; intros acc Hnd; simpl.
  - by rewrite app_nil_r.
  - rewrite dict_set_fresh.
    + rewrite IH; rewrite <- app_assoc; done.
    + rewrite fmap_app in Hnd. simpl in Hnd.
      apply NoDup_app in Hnd as (_ & Hd & _). intros Hin.
      apply (Hd k Hin). apply list_elem_of_here.
Qed.

(** Members with pairwise distinct names are stored as they stand. *)
Lemma dict_of_members_NoDup (l : list (string * V)) :
  NoDup l.*1 -> dict_of_members l = l.
Proof. intros H. unfold dict_of_members. by rewrite dict_of_members_acc. Qed.


End dict_facts.

(** ** City fetcher *)

Lemma city_count_cons (r : string) (cs : list City) (m : list (string * list City)) :
  city_count ((r, cs) :: m) = (length cs + city_count m)%nat.
Proof. unfold city_count. simpl. by rewrite length_app. Qed.

Lemma city_count_set_Some r old c (m : list (string * list City)) :
  dict_get r m = Some old ->
  city_count (dict_set r (old ++ [c]) m) = S (city_count m).
Proof.
  induction m as [|[r' cs] m IH]; simpl; [done|].
  destruct (decide (r = r')) as [->|Hne].
  - intros [= ->]. rewrite !city_count_cons, length_app. simpl. lia.
  - intros H. rewrite !city_count_cons, IH by done. lia.
Qed.

Lemma city_count_set_None r c (m : list (string * list City)) :
  dict_get r m = None ->
  city_count (dict_set r [c] m) = S (city_count m).
Proof.
  induction m as [|[r' cs] m IH]; simpl; [done|].
  destruct (decide (r = r')) as [->|Hne]; [done|].
  intros H. rewrite !city_count_cons, IH by done. lia.
Qed.

Lemma region_of_Some regions city r :
  region_of regions city = Some r ->
  exists k, py_getitem city "fkEmirateID" = Ok (PStr k)
            /\ dict_get k regions = Some r.
Proof.
  unfold region_of. destruct (py_getitem city "fkEmirateID") as [[]|]; try done.
  eauto.
Qed.

Lemma catalog_contains_unknown regions city fk :
  py_getitem city "fkEmirateID" = Ok fk ->
  py_hashable fk = true ->
  region_of regions city = None ->
  catalog_contains fk regions = Ok false.
Proof.
  unfold region_of. intros -> Hh Hr. destruct fk; try done.
  simpl. unfold dict_mem. by rewrite Hr.
Qed.

Section get_cities_loop.
Variables (regions : list (string * string)) (use_arabic : bool).

Lemma get_cities_loop_spec (data : list pyval) :
  Forall (listed_city regions use_arabic) data ->
  forall acc : list (string * list City),
  exists m,
    get_cities_loop regions use_arabic data acc
    = (LogMissingRegion <$> filter (fun c => region_of regions c = None) data,
       Ok m)
    /\ (forall r, exists l,
          rmap (city_data use_arabic)
               (filter (fun c => region_of regions c = Some r) data) = Ok l
          /\ dict_get r m
             = match dict_get r acc with
               | Some old => Some (old ++ l)
               | None => match l with [] => None | _ => Some l end
               end)
    /\ (NoDup acc.*1 -> NoDup m.*1)
    /\ (forall r, r ∈ m.*1 ->
          r ∈ acc.*1 \/ exists k, dict_get k regions = Some r)
    /\ city_count m
       = (city_count acc
          + length (filter (fun c => is_Some (region_of regions c)) data))%nat.
Proof.
  induction 1 as [|city rest Hcity Hrest IH]; intros acc.
  { exists acc. simpl. split; [done|]. split.
    - intros r. exists []. split; [done|].
      destruct (dict_get r acc); [by rewrite app_nil_r | done].
    - split; [done|]. split; [auto|]. unfold city_count. simpl. lia. }
  destruct Hcity as [(fk & Hfk & Hhash) Hknown].
  destruct (region_of regions city) as [r0|] eqn:Hreg.
  - (* the region is in the catalog *)
    destruct (region_of_Some _ _ _ Hreg) as (k & Hk & Hk0).
    destruct Hknown as [c Hc]; [done|].
    assert (Hstep : forall acc',
      get_cities_loop regions use_arabic (city :: rest) acc
      = get_cities_loop regions use_arabic rest acc' ->
      dict_get r0 acc' = Some (default [] (dict_get r0 acc) ++ [c]) ->
      (forall r, r <> r0 -> dict_get r acc' = dict_get r acc) ->
      (NoDup acc.*1 -> NoDup acc'.*1) ->
      (forall r, r ∈ acc'.*1 -> r ∈ acc.*1 \/ r = r0) ->
      city_count acc' = S (city_count acc) ->
      exists m,
        get_cities_loop regions use_arabic (city :: rest) acc
        = (LogMissingRegion <$>
             filter (fun c => region_of regions c = None) (city :: rest), Ok m)
        /\ (forall r, exists l,
              rmap (city_data use_arabic)
                (filter (fun c => region_of regions c = Some r) (city :: rest))
              = Ok l
              /\ dict_get r m
                 = match dict_get r acc with
                   | Some old => Some (old ++ l)
                   | None => match l with [] => None | _ => Some l end
                   end)
        /\ (NoDup acc.*1 -> NoDup m.*1)
        /\ (forall r, r ∈ m.*1 ->
              r ∈ acc.*1 \/ exists k, dict_get k regions = Some r)
        /\ city_count m
           = (city_count acc
              + length (filter (fun c => is_Some (region_of regions c))
                               (city :: rest)))%nat).
    { intros acc' Heq Hget0 Hget Hnd Hkeys Hcount.
      destruct (IH acc') as (m & Hrun & Hm & Hndm & Hkm & Hcm).
      exists m. rewrite Heq, Hrun. split.
      { rewrite filter_cons, decide_False by (rewrite Hreg; done). done. }
      split.
      { intros r. destruct (Hm r) as (l & Hl & Hgr).
        rewrite filter_cons. destruct (decide (region_of regions city = Some r))
          as [Hr|Hr].
        - assert (r = r0) as -> by congruence.
          exists (c :: l). simpl. rewrite Hc. simpl. rewrite Hl. simpl.
          split; [done|]. rewrite Hgr, Hget0.
          destruct (dict_get r0 acc); simpl; [by rewrite <- app_assoc | done].
        - assert (r <> r0) by congruence.
          exists l. split; [done|]. rewrite Hgr, Hget by done. done. }
      split; [auto|]. split.
      { intros r Hr. destruct (Hkm r Hr) as [Hin|?]; [|by right].
        destruct (Hkeys r Hin) as [?| ->]; [by left | right; eauto]. }
      rewrite Hcm, Hcount, filter_cons, decide_True by (rewrite Hreg; done).
      simpl. lia. }
    assert (Hrun : forall acc',
      acc' = match dict_get r0 acc with
             | Some cities => dict_set r0 (cities ++ [c]) acc
             | None => dict_set r0 [c] acc
             end ->
      get_cities_loop regions use_arabic (city :: rest) acc
      = get_cities_loop regions use_arabic rest acc').
    { intros acc' ->. simpl. rewrite Hk. rewrite bind_lift_Ok. simpl.
      unfold dict_mem. rewrite Hk0. rewrite bind_lift_Ok.
      unfold dict_getitem. rewrite Hk0. rewrite bind_lift_Ok.
      unfold city_data in Hc.
      destruct (py_getitem city (if use_arabic then "ArabicName" else "EnglishName"))
        as [n|]; [|done].
      destruct (py_getitem city "pkCityID") as [i|]; [|done].
      simpl in Hc. injection Hc as <-. rewrite !bind_lift_Ok. done. }
    destruct (dict_get r0 acc) as [old|] eqn:Hold.
    + apply (Hstep (dict_set r0 (old ++ [c]) acc)); [by apply Hrun | ..].
      * by rewrite dict_get_set_eq.
      * intros r Hr. by rewrite dict_get_set_ne.
      * apply dict_set_NoDup.
      * intros r. rewrite dict_set_keys_old; [by left|].
        apply dict_get_is_Some. by rewrite Hold.
      * by apply city_count_set_Some.
    + apply (Hstep (dict_set r0 [c] acc)); [by apply Hrun | ..].
      * by rewrite dict_get_set_eq.
      * intros r Hr. by rewrite dict_get_set_ne.
      * apply dict_set_NoDup.
      * intros r. rewrite dict_set_keys_new by (by apply dict_get_None).
        rewrite elem_of_app, list_elem_of_singleton. done.
      * by apply city_count_set_None.
  - (* the region is unknown: a warning, and the city is dropped *)
    destruct (IH acc) as (m & Hrun & Hm & Hndm & Hkm & Hcm).
    exists m. split.
    { simpl. rewrite Hfk, bind_lift_Ok.
      rewrite (catalog_contains_unknown regions city fk) by done.
      rewrite bind_lift_Ok, bind_emit, Hrun. simpl.
      rewrite filter_cons, decide_True by done. done. }
    split.
    { intros r. destruct (Hm r) as (l & Hl & Hgr). exists l.
      rewrite filter_cons, decide_False by (rewrite Hreg; done). done. }
    split; [done|]. split; [done|].
    rewrite Hcm, filter_cons, decide_False; [done|].
    rewrite Hreg. by intros [? ?].
Qed.
End get_cities_loop.

(** C5: for a listing that is a list of city objects, [get_cities] returns a
    mapping in which the list of a region name is exactly the records of the
    listed cities whose [fkEmirateID] the catalog maps to that name, in
    listing order (and a name with no such city is absent); every name of
    the mapping is a name of the catalog; the mapping holds as many cities
    as the listing has cities with a known region; and each city with an
    unknown region is logged with a warning, after the count of the
    listing. *)
Theorem get_cities_keeps_cities_of_known_regions :
  forall (response : text) (regions : list (string * string))
         (use_arabic : bool) (data : list pyval),
    json_loads response = Ok (PList data) ->
    Forall (listed_city regions use_arabic) data ->
    exists m,
      get_cities response regions use_arabic
      = (LogScrapedCities (length data)
           :: (LogMissingRegion
                 <$> filter (fun c => region_of regions c = None) data),
         Ok (Some m))
      /\ (forall r, exists l,
            rmap (city_data use_arabic)
                 (filter (fun c => region_of regions c = Some r) data) = Ok l
            /\ dict_get r m = match l with [] => None | _ => Some l end)
      /\ NoDup m.*1
      /\ (forall r, r ∈ m.*1 -> exists k, dict_get k regions = Some r)
      /\ city_count m
         = length (filter (fun c => is_Some (region_of regions c)) data).
Proof.
  intros response regions use_arabic data Hloads Hdata.
  destruct (get_cities_loop_spec regions use_arabic data Hdata [])
    as (m & Hrun & Hm & Hnd & Hkeys & Hcount).
  exists m. split.
  { unfold get_cities. destruct response; try done.
    simpl text_nonempty. cbv iota. rewrite Hloads, bind_lift_Ok.
    simpl py_len. rewrite bind_lift_Ok, bind_emit. simpl py_iter.
    rewrite bind_lift_Ok, Hrun, bind_pair. simpl. by rewrite app_nil_r. }
  split; [exact Hm|]. split; [apply Hnd, NoDup_nil_2|]. split.
  - intros r Hr. destruct (Hkeys r Hr) as [Hin|?]; [|done].
    by apply elem_of_nil in Hin.
  - exact Hcount.
Qed.

Lemma get_cities_keeps_cities_of_known_regions_witness :
  exists m,
    outcome (get_cities Sample.listing REGIONS true) = Ok (Some m)
    /\ dict_get "Riyadh" m
       = Some [ {| name := PStr "ar-three"; id := PInt 3; districts := [] |};
                {| name := PStr "ar-seven"; id := PStr "7"; districts := [] |} ]
    /\ city_count m = 3%nat.
Proof.
  destruct (get_cities_keeps_cities_of_known_regions
              Sample.listing REGIONS true sample_listing_data)
    as (m & Hrun & Hm & _ & _ & Hcount).
  - reflexivity.
  - unfold sample_listing_data. simpl.
    repeat (constructor;
            [split; [eexists; split; reflexivity
                    | intros _; eexists; reflexivity] |]).
    constructor.
  - exists m. split; [by rewrite Hrun|]. split.
    + destruct (Hm "Riyadh") as (l & Hl & Hget).
      vm_compute in Hl. injection Hl as <-. exact Hget.
    + rewrite Hcount. reflexivity.
Defined.

(** ** Region catalog loader *)




Lemma py_int_raises_ValueError a e : py_int a = Raise e -> e = ValueError.
Proof. unfold py_int. by repeat case_match; intros [=]. Qed.






(** ** JSON round trip *)

Lemma pyval_nested_ind (P : pyval -> Prop) :
  P PNone ->
  (forall b, P (PBool b)) ->
  (forall z, P (PInt z)) ->
  (forall s, P (PStr s)) ->
  (forall l, Forall P l -> P (PList l)) ->
  (forall d, Forall (fun kv => P kv.2) d -> P (PDict d)) ->
  forall v, P v.
Proof.
  intros HN HB HI HS HL HD. fix IH 1. intros [| b | z | s | l | d].
  - exact HN.
  - apply HB.
  - apply HI.
  - apply HS.
  - apply HL. induction l as [|x l IHl]; constructor; [apply IH | exact IHl].
  - apply HD. induction d as [|[k x] d IHd]; constructor; [apply IH | exact IHd].
Qed.


(** Reading back what was written gives the value again, with every list
    and every dictionary in its order. *)
Lemma map_fixes {A} (f : A -> A) (l : list A) :
  Forall (fun x => f x = x) l -> map f l = l.
Proof. induction 1 as [|x l Hx _ IH]; simpl; [done|]. by rewrite Hx, IH. Qed.

Lemma decode_encode (v : pyval) : py_wf v = true -> decode (encode v) = v.
Proof.
  induction v as [| b | z | s | l IH | d IH] using pyval_nested_ind;
    simpl; try done.
  - intros Hwf. f_equal. rewrite forallb_forall in Hwf.
    rewrite map_map. apply map_fixes.
    apply Forall_forall. intros x Hx.
    rewrite Forall_forall in IH. apply IH; [done|].
    apply Hwf. by apply list_elem_of_In.
  - intros Hwf. apply andb_prop in Hwf as [Hnd Hwf].
    apply bool_decide_eq_true in Hnd. rewrite forallb_forall in Hwf.
    f_equal. rewrite map_map.
    rewrite (map_fixes _ d); [by apply dict_of_members_NoDup|].
    apply Forall_forall. intros [k x] Hx. simpl. f_equal.
    rewrite Forall_forall in IH. apply (IH (k, x)); [done|].
    apply (Hwf (k, x)). by apply list_elem_of_In.
Qed.

(** C8: writing the region -> cities mapping with [json.dumps] and reading
    the document back with [json.loads] gives the same value: the regions in
    the same order, the cities of each region in the same order, the
    districts of each city in the same order.  In particular the exporter,
    which reads the file [main] wrote, renders the regions of the mapping in
    their order, each with its cities in their order. *)
Theorem json_round_trip_keeps_order :
  forall res_data : list (string * list City),
    py_wf (mapping_to_py res_data) = true ->
    json_loads (json_dumps (mapping_to_py res_data))
    = Ok (mapping_to_py res_data)
    /\ forall (fs : gmap string File) (save_path json_source : string),
         let fs1 :=
           <[json_source := TextFile (json_dumps (mapping_to_py res_data))]> fs in
         save_to_excel fs1 save_path json_source
         = let? workbook :=
             render_regions 1
               (map (fun rc => (rc.1, PList (map city_to_py rc.2))) res_data)
               new_workbook in
           Ok (<[save_path := WorkbookFile workbook]> fs1).
Proof.
  intros res_data Hwf.
  assert (Hloads : json_loads (json_dumps (mapping_to_py res_data))
                   = Ok (mapping_to_py res_data)).
  { unfold json_loads, json_dumps. f_equal. by apply decode_encode. }
  split; [exact Hloads|].
  intros fs save_path json_source fs1. unfold save_to_excel, fs1.
  rewrite lookup_insert_eq, Hloads. reflexivity.
Qed.

Lemma json_round_trip_keeps_order_witness :
  json_loads (json_dumps (mapping_to_py sample_res_data))
  = Ok (PDict
          [ ("Riyadh",
             PList [ PDict [ ("name", PStr "ar-seven"); ("id", PStr "7");
                             ("districts", PList [PStr "a7"; PStr "b7"]) ];
                     PDict [ ("name", PStr "ar-nine"); ("id", PStr "9");
                             ("districts", PList [PStr "a9"; PStr "b9"]) ] ]);
            ("Medina",
             PList [ PDict [ ("name", PStr "ar-eight"); ("id", PStr "8");
                             ("districts", PList [PStr "a8"; PStr "b8"]) ] ]) ]).
Proof.
  destruct (json_round_trip_keeps_order sample_res_data) as [H _].
  - vm_compute. reflexivity.
  - exact H.
Defined.

(** ** The two output paths *)

Lemma outcome_bind {A B} (m : M A) (f : A -> M B) :
  outcome (bind m f)
  = match outcome m with
    | Ok a => outcome (f a)
    | Raise e => Raise e
    end.
Proof.
  destruct m as [l [a|e]]; unfold bind, outcome; simpl; [|done].
  by destruct (f a).
Qed.

Lemma save_to_excel_Ok fs save_path json_source fs' :
  save_to_excel fs save_path json_source = Ok fs' ->
  exists workbook, fs' = <[save_path := WorkbookFile workbook]> fs.
Proof.
  unfold save_to_excel. destruct (fs !! json_source) as [[t|w]|]; try done.
  destruct (json_loads t) as [data|]; simpl; [|done].
  destruct (py_items data) as [items|]; simpl; [|done].
  destruct (render_regions 1 items new_workbook) as [wb|]; simpl; [|done].
  intros [= <-]. by exists wb.
Qed.

(** C2: the two path constants are the same file name; a run of [main] that
    comes to its end has fetched some [res_data], written its JSON document
    to [parent / RESULTS_JSON] and then saved the workbook rendered from it
    to the same path, so that the path holds the workbook and the JSON
    document is gone. *)
Theorem main_saves_workbook_over_json :
  RESULTS_JSON = RESULTS_EXCEL
  /\ forall (env : Env) (fs fs' : gmap string File),
       outcome (main env fs) = Ok fs' ->
       let path := path_join (env_parent env) RESULTS_JSON in
       exists (res_data : list (string * list City)) (workbook : list Sheet),
         outcome (let! regions := get_regions (env_regions_html env) true in
                  let! m := get_cities (env_cities env) regions true in
                  get_and_merge_districts (env_districts env) m)
         = Ok res_data
         /\ save_to_excel
              (<[path := TextFile (json_dumps (mapping_to_py res_data))]> fs)
              path path = Ok fs'
         /\ fs' = <[path := WorkbookFile workbook]> fs
         /\ fs' !! path = Some (WorkbookFile workbook).
Proof.
  split; [reflexivity|].
  intros env fs fs' Hmain path. unfold main in Hmain.
  rewrite outcome_bind in Hmain. rewrite outcome_bind.
  destruct (outcome (get_regions (env_regions_html env) true))
    as [regions|] eqn:Hregions; [|done].
  rewrite outcome_bind in Hmain.
  change (outcome (emit (LogScrapedRegions (length regions)))) with (Ok tt)
    in Hmain.
  cbv beta iota in Hmain.
  rewrite outcome_bind in Hmain. rewrite outcome_bind.
  destruct (outcome (get_cities (env_cities env) regions true))
    as [m|] eqn:Hcities; [|done].
  rewrite outcome_bind in Hmain.
  destruct (outcome (get_and_merge_districts (env_districts env) m))
    as [res_data|] eqn:Hmerge; [|done].
  unfold lift, outcome in Hmain. simpl in Hmain.
  change RESULTS_EXCEL with RESULTS_JSON in Hmain. fold path in Hmain.
  destruct (save_to_excel_Ok _ _ _ _ Hmain) as [workbook Hfs'].
  exists res_data, workbook. split; [done|]. split; [exact Hmain|].
  rewrite insert_insert_eq in Hfs'. split; [exact Hfs'|].
  rewrite Hfs'. apply lookup_insert_eq.
Qed.

Lemma main_saves_workbook_over_json_witness :
  exists workbook : list Sheet,
    outcome (main Sample.env ∅)
    = Ok {[ "/srv/spl/region_cities_districts.json" := WorkbookFile workbook ]}.
Proof.
  destruct main_saves_workbook_over_json as [_ H].
  destruct (outcome (main Sample.env ∅)) as [fs'|e] eqn:Hrun.
  - destruct (H Sample.env ∅ fs' Hrun) as (res_data & workbook & _ & _ & Hfs' & _).
    exists workbook. rewrite Hfs'. reflexivity.
  - vm_compute in Hrun. discriminate Hrun.
Defined.

(** ** District fetcher *)

Lemma outcome_for_each {A B} (f : A -> M B) (l : list A) (ys : list B) :
  outcome (for_each f l) = Ok ys <->
  Forall2 (fun x y => outcome (f x) = Ok y) l ys.
Proof.
  revert ys. induction l as [|x l IH]; intros ys; simpl.
  - split.
    + intros [= <-]. constructor.
    + intros H. by inversion H.
  - rewrite outcome_bind. split.
    + destruct (outcome (f x)) as [y|] eqn:Hx; [|done].
      rewrite outcome_bind.
      destruct (outcome (for_each f l)) as [ys'|] eqn:Hl; [|done].
      intros [= <-]. constructor; [done|]. by apply IH.
    + intros H. inversion H as [|? y ? ys' Hy Hys]; subst.
      rewrite Hy, outcome_bind. apply IH in Hys. by rewrite Hys.
Qed.

Lemma outcome_for_each_lift {A B} (f : A -> result B) (l : list A) :
  outcome (for_each (fun x => lift (f x)) l) = rmap f l.
Proof.
  induction l as [|x l IH]; simpl; [done|].
  rewrite outcome_bind. unfold lift at 1, outcome at 1. simpl.
  destruct (f x) as [y|]; simpl; [|done].
  rewrite outcome_bind, IH. by destruct (rmap f l).
Qed.

(** A successful [get_districts] returns nothing, or the one entry of the
    city with the names of the chosen language. *)
Lemma get_districts_Ok fetch city_id use_arabic r :
  outcome (get_districts fetch city_id use_arabic) = Ok r ->
  r = []
  \/ exists names,
       r = [(py_str city_id, names)]
       /\ district_names use_arabic (fetch city_id) = Ok names.
Proof.
  unfold get_districts, district_names. rewrite outcome_bind.
  unfold lift at 1, outcome at 1. simpl.
  destruct (json_loads (fetch city_id)) as [res|]; simpl; [|done].
  rewrite outcome_bind. unfold lift at 1, outcome at 1. simpl.
  destruct (py_len res) as [n|]; [|done].
  rewrite outcome_bind. change (outcome (emit _)) with (Ok tt). cbv beta iota.
  destruct (py_truthy res).
  - rewrite outcome_bind. unfold lift at 1, outcome at 1. simpl.
    destruct (py_iter res) as [items|]; simpl; [|done].
    rewrite outcome_bind, outcome_for_each_lift.
    destruct (rmap _ items) as [names|]; [|done].
    intros [= <-]. right. by exists names.
  - intros [= <-]. by left.
Qed.

Lemma merge_inner_get (b : bool) k v (city_dist acc : list (string * list pyval)) :
  dict_get k
    (fold_left (fun merged kv => if b then dict_set kv.1 kv.2 merged else merged)
               city_dist acc) = Some v ->
  dict_get k acc = Some v \/ (k, v) ∈ city_dist.
Proof.
  revert acc. induction city_dist as [|[k' v'] cd IH]; intros acc; simpl.
  { by left. }
  intros H. apply IH in H as [H|H].
  - destruct b; [|by left].
    destruct (decide (k' = k)) as [->|Hne].
    + rewrite dict_get_set_eq in H. injection H as ->.
      right. apply list_elem_of_here.
    + rewrite dict_get_set_ne in H by done. by left.
  - right. by apply list_elem_of_further.
Qed.

Lemma merge_results_get_acc k v results (acc : list (string * list pyval)) :
  dict_get k
    (fold_left
       (fun merged city_dist =>
          fold_left
            (fun merged kv =>
               if negb (bool_decide (length city_dist = 0%nat))
               then dict_set kv.1 kv.2 merged else merged)
            city_dist merged)
       results acc) = Some v ->
  dict_get k acc = Some v \/ exists r, r ∈ results /\ (k, v) ∈ r.
Proof.
  revert acc. induction results as [|r results IH]; intros acc; simpl.
  { by left. }
  intros H. apply IH in H as [H|(r' & Hr' & Hin)].
  - apply merge_inner_get in H as [H|H]; [by left|].
    right. exists r. split; [apply list_elem_of_here | done].
  - right. exists r'. split; [by apply list_elem_of_further | done].
Qed.

(** An entry of the merged dictionary is an entry of one of the results. *)
Lemma merge_results_get k v results :
  dict_get k (merge_results results) = Some v ->
  exists r, r ∈ results /\ (k, v) ∈ r.
Proof.
  intros H. apply merge_results_get_acc in H as [H|H]; [done | exact H].
Qed.

Lemma merge_region_Ok fetch cities cities' :
  outcome (merge_region fetch cities) = Ok cities' <->
  exists results,
    Forall2 (fun c r => outcome (get_districts fetch (id c) true) = Ok r)
            cities results
    /\ Forall2 (fun c c' =>
                  exists dists,
                    merged_get (id c) (merge_results results) = Ok dists
                    /\ c' = {| name := name c; id := id c; districts := dists |})
               cities cities'.
Proof.
  unfold merge_region. rewrite outcome_bind. split.
  - destruct (outcome (for_each _ cities)) as [results|] eqn:Hres; [|done].
    intros H. exists results. split; [by apply outcome_for_each|].
    apply outcome_for_each in H. eapply Forall2_impl; [exact H|].
    intros c c'. simpl. rewrite outcome_bind. unfold lift, outcome. simpl.
    destruct (merged_get (id c) (merge_results results)) as [dists|]; [|done].
    intros [= <-]. by exists dists.
  - intros (results & Hres & Hall). apply outcome_for_each in Hres.
    rewrite Hres. apply outcome_for_each.
    eapply Forall2_impl; [exact Hall|].
    intros c c' (dists & Hget & ->). simpl.
    rewrite outcome_bind. unfold lift, outcome. simpl. by rewrite Hget.
Qed.

Lemma get_and_merge_districts_Ok fetch mapping res :
  outcome (get_and_merge_districts fetch (Some mapping)) = Ok res <->
  Forall2 (fun rc rc' =>
             rc'.1 = rc.1 /\ outcome (merge_region fetch rc.2) = Ok rc'.2)
          mapping res.
Proof.
  unfold get_and_merge_districts. rewrite outcome_for_each.
  split; intros H; (eapply Forall2_impl; [exact H|]); intros rc rc'; simpl;
    rewrite outcome_bind.
  - destruct (outcome (merge_region fetch rc.2)) as [cities|]; [|done].
    intros [= <-]. done.
  - intros [H1 H2]. rewrite H2. simpl. destruct rc'. simpl in *. by subst.
Qed.

Lemma Forall2_elem_of_r {A B} (R : A -> B -> Prop) (l : list A) (k : list B) y :
  Forall2 R l k -> y ∈ k -> exists x, x ∈ l /\ R x y.
Proof.
  induction 1 as [|x y' l k HR _ IH]; intros Hy.
  - by apply elem_of_nil in Hy.
  - apply elem_of_cons in Hy as [->|Hy].
    + exists x. split; [apply list_elem_of_here | done].
    + destruct (IH Hy) as (x' & Hx' & HR'). exists x'.
      split; [by apply list_elem_of_further | done].
Qed.

Lemma Forall2_elem_of_l {A B} (R : A -> B -> Prop) (l : list A) (k : list B) x :
  Forall2 R l k -> x ∈ l -> exists y, y ∈ k /\ R x y.
Proof.
  induction 1 as [|x' y l k HR _ IH]; intros Hx.
  - by apply elem_of_nil in Hx.
  - apply elem_of_cons in Hx as [->|Hx].
    + exists y. split; [apply list_elem_of_here | done].
    + destruct (IH Hx) as (y' & Hy' & HR'). exists y'.
      split; [by apply list_elem_of_further | done].
Qed.

(** Where the districts of a merged city come from: it has none, or it has
    the Arabic names of the response to a city of its region whose id has the
    same [str] form. *)
Lemma merged_get_source fetch cities results key dists :
  Forall2 (fun c r => outcome (get_districts fetch (id c) true) = Ok r)
          cities results ->
  merged_get key (merge_results results) = Ok dists ->
  dists = []
  \/ exists c0, c0 ∈ cities /\ PStr (py_str (id c0)) = key
                /\ outcome (get_districts fetch (id c0) true)
                   = Ok [(py_str (id c0), dists)]
                /\ district_names true (fetch (id c0)) = Ok dists.
Proof.
  intros Hres Hget. destruct key as [| b | z | s | l | d]; simpl in Hget;
    try (injection Hget as <-; by left); try done.
  destruct (dict_get s (merge_results results)) as [v|] eqn:Hs; simpl in Hget;
    injection Hget as <-; [|by left].
  apply merge_results_get in Hs as (r & Hr & Hin).
  destruct (Forall2_elem_of_r _ _ _ _ Hres Hr) as (c0 & Hc0 & Hrun).
  destruct (get_districts_Ok _ _ _ _ Hrun) as [->|(names & -> & Hnames)].
  { by apply elem_of_nil in Hin. }
  apply list_elem_of_singleton in Hin. injection Hin as -> ->.
  right. by exists c0.
Qed.

(** C10: whatever mapping [get_and_merge_districts] is given (so whatever
    language its city names were taken in), a city comes out with its name
    and id unchanged and with, as districts, either nothing or the values of
    the [ArabicName] field of the items of a district response: the function
    has no language flag and calls [get_districts] with its default. *)
Theorem merged_districts_are_arabic_names :
  forall (fetch : pyval -> text) (mapping res : list (string * list City)),
    outcome (get_and_merge_districts fetch (Some mapping)) = Ok res ->
    Forall2
      (fun rc rc' =>
         rc'.1 = rc.1
         /\ Forall2
              (fun c c' =>
                 name c' = name c /\ id c' = id c
                 /\ (districts c' = []
                     \/ exists c0,
                          c0 ∈ rc.2 /\ PStr (py_str (id c0)) = id c
                          /\ district_names true (fetch (id c0))
                             = Ok (districts c')))
              rc.2 rc'.2)
      mapping res.
Proof.
  intros fetch mapping res Hrun. apply get_and_merge_districts_Ok in Hrun.
  eapply Forall2_impl; [exact Hrun|].
  intros [region cities] [region' cities']. simpl. intros [-> Hmerge].
  split; [done|].
  apply merge_region_Ok in Hmerge as (results & Hres & Hall).
  eapply Forall2_impl; [exact Hall|].
  intros c c' (dists & Hget & ->). simpl. split; [done|]. split; [done|].
  destruct (merged_get_source _ _ _ _ _ Hres Hget)
    as [->|(c0 & Hc0 & Hkey & _ & Hnames)]; [by left|].
  right. by exists c0.
Qed.

Lemma merged_districts_are_arabic_names_witness :
  Forall2
    (fun rc rc' =>
       rc'.1 = rc.1
       /\ Forall2
            (fun c c' =>
               name c' = name c /\ id c' = id c
               /\ (districts c' = []
                   \/ exists c0,
                        c0 ∈ rc.2 /\ PStr (py_str (id c0)) = id c
                        /\ district_names true (Sample.two_districts (id c0))
                           = Ok (districts c')))
            rc.2 rc'.2)
    [("Riyadh", [ {| name := PStr "en-seven"; id := PStr "7"; districts := [] |} ])]
    [("Riyadh", [ {| name := PStr "en-seven"; id := PStr "7";
                     districts := [PStr "a7"; PStr "b7"] |} ])].
Proof.
  apply (merged_districts_are_arabic_names Sample.two_districts).
  vm_compute. reflexivity.
Defined.

(** ** Empty and malformed district responses *)


Lemma Forall2_elem_of_impl {A B} (R S : A -> B -> Prop) (l : list A) (k : list B) :
  Forall2 R l k ->
  (forall x y, x ∈ l -> R x y -> S x y) ->
  Forall2 S l k.
Proof.
  induction 1 as [|x y l k HR _ IH]; intros H; constructor.
  - apply H; [apply list_elem_of_here | done].
  - apply IH. intros x' y' Hx'. apply H. by apply list_elem_of_further.
Qed.









(** ** Column letters *)

(** The largest index that [fuel] letters can name. *)
Fixpoint letters_bound (fuel : nat) : Z :=
  match fuel with
  | O => 0
  | S fuel' => 26 * letters_bound fuel' + 26
  end.

Lemma letters_bound_nonneg fuel : 0 <= letters_bound fuel.
Proof. induction fuel; simpl; lia. Qed.

Lemma column_index_go_letter (r : Z) (a : Z) (s : string) :
  1 <= r <= 26 ->
  column_index_go a (String (ascii_of_N (Z.to_N (r + 64))) s)
  = column_index_go (26 * a + r) s.
Proof.
  intros Hr. simpl. rewrite N_ascii_embedding by lia. f_equal. lia.
Qed.

(** Reading back the letters of an index gives the index. *)
Lemma column_index_go_letters (fuel : nat) :
  forall (j : Z) (s : string) (a : Z),
    0 <= j <= letters_bound fuel ->
    exists n : nat,
      column_index_go a (column_letters fuel j s)
      = column_index_go (a * 26 ^ Z.of_nat n + j) s.
Proof.
  induction fuel as [|fuel IH]; intros j s a Hj.
  { simpl in Hj. exists 0%nat. simpl. f_equal. lia. }
  cbn [column_letters letters_bound] in *.
  destruct (j <=? 0) eqn:Hj0.
  { apply Z.leb_le in Hj0. exists 0%nat. simpl. f_equal. lia. }
  apply Z.leb_gt in Hj0.
  pose proof (letters_bound_nonneg fuel) as Hb.
  assert (Hstep : forall q' r', j = 26 * q' + r' -> 1 <= r' <= 26 ->
            exists n : nat,
              column_index_go a
                (column_letters fuel q' (String (ascii_of_N (Z.to_N (r' + 64))) s))
              = column_index_go (a * 26 ^ Z.of_nat n + j) s).
  { intros q' r' Hqr Hr'.
    destruct (IH q' (String (ascii_of_N (Z.to_N (r' + 64))) s) a) as [n Hn];
      [lia|].
    exists (S n). rewrite Hn, column_index_go_letter by done. f_equal.
    rewrite Nat2Z.inj_succ, Z.pow_succ_r by lia. lia. }
  destruct (j mod 26 =? 0) eqn:Hr.
  - apply Z.eqb_eq in Hr. apply Hstep; [|lia].
    Z.div_mod_to_equations. lia.
  - apply Z.eqb_neq in Hr. apply Hstep.
    + Z.div_mod_to_equations. lia.
    + Z.div_mod_to_equations. lia.
Qed.

Lemma get_column_letter_index j letter :
  get_column_letter j = Ok letter -> column_index_from_string letter = j.
Proof.
  unfold get_column_letter.
  destruct ((1 <=? j) && (j <=? 18278)) eqn:Hrange; [|done].
  intros [= <-]. apply andb_prop in Hrange as [H1 H2].
  apply Z.leb_le in H1, H2.
  destruct (column_index_go_letters 3 j "" 0) as [n Hn].
  { change (letters_bound 3) with 18278. lia. }
  change (column_index_go 0 (column_letters 3 j "") = j).
  rewrite Hn. simpl. lia.
Qed.

Lemma get_column_letter_inj i j letter :
  get_column_letter i = Ok letter -> get_column_letter j = Ok letter -> i = j.
Proof.
  intros Hi Hj. apply get_column_letter_index in Hi, Hj. congruence.
Qed.

Lemma get_column_letter_Ok j :
  1 <= j <= 18278 -> exists letter, get_column_letter j = Ok letter.
Proof.
  intros H. unfold get_column_letter.
  assert ((1 <=? j) && (j <=? 18278) = true) as ->; [|eauto].
  apply andb_true_intro. split; lia.
Qed.

Lemma get_column_letter_1 : get_column_letter 1 = Ok "A".
Proof. reflexivity. Qed.

(** ** Writing the cells of a sheet *)

Lemma sheet_cell_text sheet row column s :
  1 <= row -> 1 <= column -> cell_text s ->
  sheet_cell sheet row column (PStr s)
  = Ok {| title := title sheet;
          cells := <[(row, column) :=
                       {| value := PStr s;
                          font := font (default blank_cell
                                          (cells sheet !! (row, column))) |}]>
                     (cells sheet);
          column_width := column_width sheet |}.
Proof.
  intros Hr Hc Hs. unfold sheet_cell.
  assert ((row <? 1) || (column <? 1) = false) as ->.
  { apply orb_false_intro; apply Z.ltb_ge; lia. }
  unfold bind_value. rewrite Hs. reflexivity.
Qed.

Lemma widen_step (lens : gmap string Z) (letter : string) (district_len : Z) :
  let stored := default 0 (lens !! letter) in
  let col_max_len := if stored =? 0 then district_len else stored in
  let grows := (col_max_len <? district_len)
               || negb (bool_decide (is_Some (lens !! letter))) in
  (if grows then <[letter := district_len]> lens else lens) !! letter
  = widen (lens !! letter) district_len
  /\ (grows = false -> widen (lens !! letter) district_len = lens !! letter).
Proof.
  simpl. destruct (lens !! letter) as [v|] eqn:Hl; simpl.
  - rewrite orb_false_r.
    destruct ((if v =? 0 then district_len else v) <? district_len).
    + by rewrite lookup_insert_eq.
    + by rewrite Hl.
  - rewrite orb_true_r. by rewrite lookup_insert_eq.
Qed.

Lemma write_districts_cons row col_idx d items sheet lens letter :
  1 <= row -> 1 <= col_idx -> cell_text d ->
  get_column_letter col_idx = Ok letter ->
  let sheet1 :=
    {| title := title sheet;
       cells := <[(row, col_idx) :=
                    {| value := PStr d;
                       font := font (default blank_cell
                                       (cells sheet !! (row, col_idx))) |}]>
                  (cells sheet);
       column_width := column_width sheet |} in
  let district_len := Z.of_nat (String.length d) in
  let stored := default 0 (lens !! letter) in
  let col_max_len := if stored =? 0 then district_len else stored in
  let grows := (col_max_len <? district_len)
               || negb (bool_decide (is_Some (lens !! letter))) in
  write_districts row col_idx (PStr d :: items) sheet lens
  = write_districts row (col_idx + 1) items
      (if grows then set_width sheet1 letter (inject_Z district_len) else sheet1)
      (if grows then <[letter := district_len]> lens else lens).
Proof.
  intros Hr Hc Hd Hl. cbn [write_districts].
  rewrite sheet_cell_text by done. rewrite Hl. simpl.
  by destruct ((_ <? _) || _).
Qed.

Lemma write_districts_spec (ds : list string) :
  forall row col_idx sheet (lens : gmap string Z),
    1 <= row -> 2 <= col_idx ->
    col_idx + Z.of_nat (length ds) <= 18279 ->
    Forall cell_text ds ->
    exists sheet' (lens' : gmap string Z),
      write_districts row col_idx (PStr <$> ds) sheet lens = Ok (sheet', lens')
      /\ title sheet' = title sheet
      /\ (forall k d, ds !! k = Some d ->
            cells sheet' !! (row, col_idx + Z.of_nat k)
            = Some {| value := PStr d;
                      font := font (default blank_cell
                                (cells sheet !! (row, col_idx + Z.of_nat k))) |})
      /\ (forall r c,
            ~ (r = row /\ col_idx <= c < col_idx + Z.of_nat (length ds)) ->
            cells sheet' !! (r, c) = cells sheet !! (r, c))
      /\ (forall k d letter,
            ds !! k = Some d ->
            get_column_letter (col_idx + Z.of_nat k) = Ok letter ->
            lens' !! letter
            = widen (lens !! letter) (Z.of_nat (String.length d)))
      /\ (forall letter,
            (forall k, (k < length ds)%nat ->
               get_column_letter (col_idx + Z.of_nat k) <> Ok letter) ->
            lens' !! letter = lens !! letter)
      /\ (forall letter,
            (lens' !! letter = lens !! letter
             /\ column_width sheet' !! letter = column_width sheet !! letter)
            \/ exists dl, lens' !! letter = Some dl
                          /\ column_width sheet' !! letter = Some (inject_Z dl)).
Proof.
  induction ds as [|d ds IH]; intros row col_idx sheet lens Hrow Hcol Hfit Htext.
  { exists sheet, lens. split; [done|]. split; [done|].
    split; [by intros k d Hk|]. split; [done|].
    split; [by intros k d letter Hk|]. split; [done|]. intros letter. by left. }
  apply Forall_cons in Htext as [Hd Htext]. simpl length in Hfit.
  destruct (get_column_letter_Ok col_idx) as [letter Hletter]; [lia|].
  rewrite fmap_cons.
  rewrite (write_districts_cons row col_idx d _ sheet lens letter) by (done || lia).
  set (sheet1 := {| title := title sheet;
                    cells := <[(row, col_idx) := _]> (cells sheet);
                    column_width := column_width sheet |}).
  set (district_len := Z.of_nat (String.length d)).
  destruct (widen_step lens letter district_len) as [Hwiden Hsame].
  cbv zeta in Hwiden, Hsame.
  set (grows := ((if default 0 (lens !! letter) =? 0
                  then district_len else default 0 (lens !! letter))
                 <? district_len)
                || negb (bool_decide (is_Some (lens !! letter)))) in *.
  set (sheet2 := if grows then set_width sheet1 letter (inject_Z district_len)
                 else sheet1).
  set (lens2 := if grows then <[letter := district_len]> lens else lens) in *.
  assert (Hcells2 : cells sheet2 = cells sheet1) by (unfold sheet2; by destruct grows).
  assert (Htitle2 : title sheet2 = title sheet) by (unfold sheet2; by destruct grows).
  assert (Hother2 : forall l, l <> letter -> lens2 !! l = lens !! l).
  { intros l Hl. unfold lens2. destruct grows; [|done]. by rewrite lookup_insert_ne. }
  assert (Hwidth2 : forall l,
            (lens2 !! l = lens !! l
             /\ column_width sheet2 !! l = column_width sheet !! l)
            \/ exists dl, lens2 !! l = Some dl
                          /\ column_width sheet2 !! l = Some (inject_Z dl)).
  { intros l. unfold sheet2, lens2. destruct grows; [|by left].
    destruct (decide (l = letter)) as [->|Hne].
    - right. exists district_len. simpl. by rewrite !lookup_insert_eq.
    - left. simpl. by rewrite !lookup_insert_ne. }
  destruct (IH row (col_idx + 1) sheet2 lens2) as
    (sheet' & lens' & Hrun & Htitle & Hcells & Hrest & Hlens & Hlother & Hwidth);
    [lia | lia | lia | done |].
  exists sheet', lens'. split; [exact Hrun|]. split; [congruence|].
  assert (Hletters : forall k l, (k < length ds)%nat ->
            get_column_letter (col_idx + 1 + Z.of_nat k) = Ok l -> l <> letter).
  { intros k l Hk Hl ->.
    pose proof (get_column_letter_inj _ _ _ Hl Hletter). lia. }
  split; [|split; [|split; [|split]]].
  - intros [|k] d' Hk; simpl in Hk.
    + injection Hk as <-. rewrite Z.add_0_r.
      rewrite Hrest by lia. rewrite Hcells2. simpl. by rewrite lookup_insert_eq.
    + replace (col_idx + Z.of_nat (S k)) with (col_idx + 1 + Z.of_nat k) by lia.
      rewrite (Hcells k d' Hk). rewrite Hcells2. simpl.
      by rewrite lookup_insert_ne by (intros [=]; lia).
  - intros r c Hout. rewrite Hrest by (simpl length in Hout; lia).
    rewrite Hcells2. simpl. rewrite lookup_insert_ne; [done|].
    intros [= <- <-]. apply Hout. simpl length. lia.
  - intros [|k] d' l Hk Hl; simpl in Hk.
    + injection Hk as <-. rewrite Z.add_0_r in Hl.
      assert (l = letter) as -> by congruence.
      rewrite Hlother; [exact Hwiden|].
      intros k Hk Hbad. by apply (Hletters k letter Hk).
    + replace (col_idx + Z.of_nat (S k)) with (col_idx + 1 + Z.of_nat k) in Hl
        by lia.
      rewrite (Hlens k d' l Hk Hl). rewrite Hother2; [done|].
      apply (Hletters k); [|done]. apply lookup_lt_Some in Hk. lia.
  - intros l Hl. rewrite Hlother.
    + apply Hother2. intros ->. apply (Hl 0%nat); [simpl; lia|].
      by rewrite Z.add_0_r.
    + intros k Hk Hbad. apply (Hl (S k)); [simpl; lia|].
      by replace (col_idx + Z.of_nat (S k)) with (col_idx + 1 + Z.of_nat k) by lia.
  - intros l. destruct (Hwidth l) as [[H1 H2]|(dl & H1 & H2)].
    + destruct (Hwidth2 l) as [[H3 H4]|(dl & H3 & H4)].
      * left. split; congruence.
      * right. exists dl. split; congruence.
    + right. by exists dl.
Qed.

Lemma write_city_spec (st : Render) (city : pyval) (n : string) (ds : list string) :
  render_inv st -> city_row city n ds -> fits_row n ds ->
  exists st',
    write_city st city = Ok st'
    /\ render_inv st'
    /\ count st' = count st + 1
    /\ title (sheet st') = title (sheet st)
    /\ cells (sheet st') !! (count st, 1)
       = Some {| value := PStr n; font := {| bold := true; size := 12 |} |}
    /\ (forall k d, ds !! k = Some d ->
          cells (sheet st') !! (count st, 2 + Z.of_nat k)
          = Some {| value := PStr d; font := DEFAULT_FONT |})
    /\ (forall r c, r <> count st ->
          cells (sheet st') !! (r, c) = cells (sheet st) !! (r, c))
    /\ city_column_max_len st'
       = (if Qgtb (inject_Z (city_len n)) (city_column_max_len st)
          then inject_Z (city_len n) else city_column_max_len st)
    /\ (forall k d letter,
          ds !! k = Some d ->
          get_column_letter (2 + Z.of_nat k) = Ok letter ->
          district_column_lens st' !! letter
          = widen (district_column_lens st !! letter)
                  (Z.of_nat (String.length d)))
    /\ (forall letter,
          (forall k, (k < length ds)%nat ->
             get_column_letter (2 + Z.of_nat k) <> Ok letter) ->
          district_column_lens st' !! letter
          = district_column_lens st !! letter).
Proof.
  intros (Hcount & Hfresh & HlensA & HwidthA & Hwidths) [Hname Hdists]
         (Hn & Hds & Hfit).
  unfold write_city. rewrite Hname. cbn [rbind].
  rewrite sheet_cell_text by (done || lia). cbn [rbind].
  cbn [py_len]. rewrite get_column_letter_1. cbn [rbind].
  rewrite Hdists. cbn [rbind py_iter].
  fold (city_len n).
  set (grows := Qgtb (inject_Z (city_len n)) (city_column_max_len st)).
  set (max_len := if grows then inject_Z (city_len n) else city_column_max_len st).
  set (sheet2 := set_font _ (count st) 1 {| bold := true; size := 12 |}).
  set (sheet3 := if grows then set_width sheet2 "A" max_len else sheet2).
  assert (Hcells3 : cells sheet3
                    = <[(count st, 1) :=
                          {| value := PStr n;
                             font := {| bold := true; size := 12 |} |}]>
                        (cells (sheet st))).
  { assert (cells sheet3 = cells sheet2) as -> by (unfold sheet3; by destruct grows).
    unfold sheet2, set_font. simpl. by rewrite alter_insert_eq. }
  assert (Htitle3 : title sheet3 = title (sheet st))
    by (unfold sheet3; by destruct grows).
  assert (HwidthA3 : column_width sheet3 !! "A" = Some max_len).
  { unfold sheet3, max_len. destruct grows; simpl.
    - by rewrite lookup_insert_eq.
    - exact HwidthA. }
  assert (Hwidths3 : forall l, l <> "A" ->
            column_width sheet3 !! l = column_width (sheet st) !! l).
  { intros l Hl. unfold sheet3. destruct grows; simpl; [|done].
    by rewrite lookup_insert_ne. }
  destruct (write_districts_spec ds (count st) 2 sheet3 (district_column_lens st))
    as (sheet' & lens' & Hrun & Htitle & Hcells & Hrest & Hlens & Hlother & Hwidth);
    [lia | lia | lia | done |].
  rewrite Hrun. cbn [rbind fst snd].
  assert (HnotA : forall k, (k < length ds)%nat ->
            get_column_letter (2 + Z.of_nat k) <> Ok "A").
  { intros k Hk Hbad.
    pose proof (get_column_letter_inj _ _ _ Hbad get_column_letter_1). lia. }
  assert (HlensA' : lens' !! "A" = None) by (by rewrite Hlother).
  eexists. split; [reflexivity|]. cbn [sheet count city_column_max_len
                                       district_column_lens].
  split; [|split; [lia|split; [congruence|split; [|split; [|split; [|split; [done|split; [exact Hlens|exact Hlother]]]]]]]].
  - (* the invariant *)
    unfold render_inv.
    cbn [sheet count city_column_max_len district_column_lens].
    split; [lia|]. split; [|split; [exact HlensA'|split]].
    + intros r c Hr. rewrite Hrest by lia. rewrite Hcells3.
      rewrite lookup_insert_ne by (intros [=]; lia). apply Hfresh. lia.
    + destruct (Hwidth "A") as [[_ H]|(dl & H & _)]; [|congruence].
      by rewrite H.
    + intros l Hl. destruct (Hwidth l) as [[H1 H2]|(dl & H1 & H2)].
      * rewrite H2, H1, Hwidths3 by done. by apply Hwidths.
      * by rewrite H2, H1.
  - rewrite Hrest by lia. rewrite Hcells3. by rewrite lookup_insert_eq.
  - intros k d Hk. rewrite (Hcells k d Hk). rewrite Hcells3.
    rewrite lookup_insert_ne by (intros [=]; lia).
    rewrite Hfresh by lia. done.
  - intros r c Hr. rewrite Hrest by lia. rewrite Hcells3.
    by rewrite lookup_insert_ne by (intros [=]; lia).
Qed.

Lemma write_cities_spec (cities : list pyval) (rows : list (string * list string)) :
  city_rows cities rows ->
  forall st, render_inv st ->
  exists st',
    write_cities st cities = Ok st'
    /\ render_inv st'
    /\ count st' = count st + Z.of_nat (length rows)
    /\ title (sheet st') = title (sheet st)
    /\ (forall i n ds, rows !! i = Some (n, ds) ->
          cells (sheet st') !! (count st + Z.of_nat i, 1)
          = Some {| value := PStr n; font := {| bold := true; size := 12 |} |}
          /\ forall k d, ds !! k = Some d ->
               cells (sheet st') !! (count st + Z.of_nat i, 2 + Z.of_nat k)
               = Some {| value := PStr d; font := DEFAULT_FONT |})
    /\ (forall r c, r < count st ->
          cells (sheet st') !! (r, c) = cells (sheet st) !! (r, c))
    /\ city_column_max_len st'
       = first_column_len rows (city_column_max_len st)
    /\ (forall k letter,
          get_column_letter (2 + Z.of_nat k) = Ok letter ->
          district_column_lens st' !! letter
          = district_column_len k rows (district_column_lens st !! letter)).
Proof.
  induction 1 as [|city [n ds] cities rows [Hrow Hfits] Hrest IH]; intros st Hinv.
  { exists st. simpl. split; [done|]. split; [done|]. split; [lia|].
    split; [done|]. split; [by intros i n ds Hi|]. done. }
  simpl in Hrow, Hfits.
  destruct (write_city_spec st city n ds Hinv Hrow Hfits) as
    (st1 & Hrun1 & Hinv1 & Hcount1 & Htitle1 & Hname1 & Hds1 & Hother1
         & Hmax1 & Hlens1 & Hlother1).
  destruct (IH st1 Hinv1) as
    (st' & Hrun & Hinv' & Hcount & Htitle & Hcells & Hbelow & Hmax & Hlens).
  exists st'. cbn [write_cities]. rewrite Hrun1. cbn [rbind].
  split; [exact Hrun|]. split; [exact Hinv'|].
  split; [rewrite Hcount, Hcount1; simpl length; lia|].
  split; [congruence|]. split; [|split; [|split]].
  - intros [|i] n' ds' Hi; simpl in Hi.
    + injection Hi as <- <-. rewrite Z.add_0_r. split.
      * rewrite Hbelow by lia. exact Hname1.
      * intros k d Hk. rewrite Hbelow by lia. by apply Hds1.
    + replace (count st + Z.of_nat (S i)) with (count st1 + Z.of_nat i) by lia.
      by apply Hcells.
  - intros r c Hr. rewrite Hbelow by lia. apply Hother1. lia.
  - rewrite Hmax, Hmax1. reflexivity.
  - intros k letter Hletter. rewrite (Hlens k letter Hletter).
    unfold district_column_len. simpl. f_equal.
    destruct (ds !! k) as [d|] eqn:Hk.
    + by apply (Hlens1 k).
    + apply Hlother1. intros k' Hk' Hbad.
      pose proof (get_column_letter_inj _ _ _ Hbad Hletter) as Heq.
      apply lookup_ge_None in Hk. lia.
Qed.

(** ** Sorting by decreasing key *)

Section sorted_desc.
Context {A : Type}.
Implicit Types (x y : nat * A) (l : list (nat * A)).

Lemma insert_desc_perm x l : insert_desc x l ≡ₚ x :: l.
Proof.
  induction l as [|y l IH]; simpl; [done|].
  destruct (y.1 <=? x.1)%nat; [done|].
  rewrite IH. apply Permutation_swap.
Qed.

Lemma sorted_desc_perm l : sorted_desc l ≡ₚ l.
Proof.
  induction l as [|x l IH]; simpl; [done|].
  rewrite insert_desc_perm. by rewrite IH.
Qed.

Lemma insert_desc_sorted x l :
  StronglySorted (fun a b => (b.1 <= a.1)%nat) l ->
  StronglySorted (fun a b => (b.1 <= a.1)%nat) (insert_desc x l).
Proof.
  induction 1 as [|y l Hsorted IH Hy]; simpl.
  { repeat constructor. }
  destruct (y.1 <=? x.1)%nat eqn:Hle.
  - apply Nat.leb_le in Hle. constructor.
    + by constructor.
    + constructor; [done|].
      eapply Forall_impl; [exact Hy|]. intros z Hz. simpl in *. lia.
  - apply Nat.leb_gt in Hle. constructor; [exact IH|].
    rewrite insert_desc_perm. constructor; [lia | exact Hy].
Qed.

Lemma sorted_desc_sorted l :
  StronglySorted (fun a b => (b.1 <= a.1)%nat) (sorted_desc l).
Proof.
  induction l as [|x l IH]; simpl; [constructor|]. by apply insert_desc_sorted.
Qed.

(** Equal keys keep their original order. *)
Lemma insert_desc_stable (n : nat) x l :
  StronglySorted (fun a b => (b.1 <= a.1)%nat) l ->
  filter (fun y => y.1 = n) (insert_desc x l)
  = filter (fun y => y.1 = n) (x :: l).
Proof.
  induction 1 as [|y l Hsorted IH Hy]; simpl; [done|].
  destruct (y.1 <=? x.1)%nat eqn:Hle; [done|].
  apply Nat.leb_gt in Hle. rewrite (filter_cons _ y), IH, !filter_cons.
  destruct (decide (y.1 = n)) as [Hyn|Hyn]; [|done].
  destruct (decide (x.1 = n)) as [Hxn|Hxn]; [lia | done].
Qed.

Lemma sorted_desc_stable (n : nat) l :
  filter (fun y => y.1 = n) (sorted_desc l) = filter (fun y => y.1 = n) l.
Proof.
  induction l as [|x l IH]; simpl; [done|].
  rewrite insert_desc_stable by apply sorted_desc_sorted.
  by rewrite !filter_cons, IH.
Qed.
End sorted_desc.


Lemma insert_desc_Forall2 {A B} (R : A -> B -> Prop)
    (x : nat * A) (y : nat * B) (l : list (nat * A)) (k : list (nat * B)) :
  x.1 = y.1 /\ R x.2 y.2 ->
  Forall2 (fun a b => a.1 = b.1 /\ R a.2 b.2) l k ->
  Forall2 (fun a b => a.1 = b.1 /\ R a.2 b.2) (insert_desc x l) (insert_desc y k).
Proof.
  intros Hxy. induction 1 as [|a b l k Hab Hlk IH]; simpl.
  { constructor; [exact Hxy | constructor]. }
  destruct Hxy as [Hkey HR]. destruct Hab as [Hkey' HR'].
  rewrite Hkey, Hkey'. destruct (b.1 <=? y.1)%nat.
  - constructor; [done|]. by constructor.
  - constructor; [done|]. exact IH.
Qed.

Lemma sorted_desc_Forall2 {A B} (R : A -> B -> Prop)
    (l : list (nat * A)) (k : list (nat * B)) :
  Forall2 (fun a b => a.1 = b.1 /\ R a.2 b.2) l k ->
  Forall2 (fun a b => a.1 = b.1 /\ R a.2 b.2) (sorted_desc l) (sorted_desc k).
Proof.
  induction 1 as [|a b l k Hab Hlk IH]; simpl; [constructor|].
  by apply insert_desc_Forall2.
Qed.

Lemma city_row_key city n ds :
  city_row city n ds ->
  (let? districts := get_districts_or_empty city in
   let? len := py_len districts in
   Ok (len, city)) = Ok (length ds, city).
Proof.
  intros [_ Hds]. destruct city as [| | | | |d]; try done.
  simpl in *. unfold dict_getitem in Hds.
  destruct (dict_get "districts" d) as [v|]; [|done].
  injection Hds as ->. simpl. by rewrite length_fmap.
Qed.

(** The exporter sorts the city objects as [sorted_rows] sorts what they
    hold. *)
Lemma sort_cities_spec cities rows :
  city_rows cities rows ->
  exists sorted,
    sort_cities (PList cities) = Ok sorted
    /\ city_rows sorted (sorted_rows rows).
Proof.
  intros Hrows. unfold sort_cities. cbn [py_iter rbind].
  assert (Hkeyed : exists keyed,
            rmap (fun x => let? districts := get_districts_or_empty x in
                           let? len := py_len districts in
                           Ok (len, x)) cities = Ok keyed
            /\ Forall2 (fun a b =>
                          a.1 = b.1
                          /\ (city_row a.2 b.2.1 b.2.2 /\ fits_row b.2.1 b.2.2))
                       keyed (map (fun r => (length r.2, r)) rows)).
  { induction Hrows as [|city r cities rows [Hrow Hfits] _ (keyed & Hk & Hall)].
    - exists []. split; [done | constructor].
    - exists ((length r.2, city) :: keyed). simpl.
      rewrite (city_row_key _ _ _ Hrow). cbn [rbind]. rewrite Hk. cbn [rbind].
      split; [done|]. by constructor. }
  destruct Hkeyed as (keyed & -> & Hall). cbn [rbind].
  eexists. split; [reflexivity|].
  apply (sorted_desc_Forall2
           (fun (c : pyval) (r : string * list string) =>
              city_row c r.1 r.2 /\ fits_row r.1 r.2)) in Hall.
  unfold city_rows, sorted_rows.
  induction Hall as [|a b l k [_ Hab] _ IH]; simpl; constructor; done.
Qed.

Lemma render_start_inv region : render_inv (render_start region).
Proof.
  unfold render_inv, render_start. simpl.
  split; [lia|]. split; [done|]. split; [done|].
  split; [by rewrite lookup_insert_eq|].
  intros letter Hl. by rewrite lookup_insert_ne, !lookup_empty.
Qed.

Lemma sorted_rows_perm rows : sorted_rows rows ≡ₚ rows.
Proof.
  unfold sorted_rows. rewrite sorted_desc_perm.
  rewrite <- list_fmap_compose. simpl. by rewrite list_fmap_id.
Qed.



(** ** The sheets of the workbook *)



Lemma render_sheet_run region cities rows :
  city_rows cities rows ->
  exists sorted st',
    sort_cities (PList cities) = Ok sorted
    /\ city_rows sorted (sorted_rows rows)
    /\ write_cities (render_start region) sorted = Ok st'
    /\ render_sheet region (PList cities) = Ok (sheet st').
Proof.
  intros Hrows.
  destruct (sort_cities_spec cities rows Hrows) as (sorted & Hsort & Hsorted).
  destruct (write_cities_spec sorted (sorted_rows rows) Hsorted
              (render_start region) (render_start_inv region))
    as (st' & Hrun & _).
  exists sorted, st'. split; [done|]. split; [done|]. split; [done|].
  unfold render_sheet. rewrite get_column_letter_1. cbn [rbind].
  rewrite Hsort. cbn [rbind]. fold (render_start region).
  by rewrite Hrun.
Qed.


Lemma sample_city_rows : city_rows [sample_city_b; sample_city_a] sample_rows.
Proof.
  unfold city_rows, sample_rows.
  repeat (constructor;
          [split; [split; reflexivity|];
           split; [vm_compute; reflexivity|];
           split; [repeat (constructor; [vm_compute; reflexivity|]); constructor
                  | simpl; lia]
          |]).
  constructor.
Qed.


(** ** Column widths *)

Lemma Qgtb_true (a b : Q) : Qgtb a b = true <-> (b < a)%Q.
Proof.
  unfold Qgtb. destruct (Qcompare a b) eqn:Hc.
  - split; [done|]. apply Qeq_alt in Hc. intros Hlt. rewrite Hc in Hlt.
    by apply Qlt_irrefl in Hlt.
  - split; [done|]. apply Qlt_alt in Hc. intros Hlt.
    exfalso. apply (Qlt_irrefl a). by eapply Qlt_trans.
  - split; [|done]. intros _. by apply Qgt_alt in Hc.
Qed.

Lemma Qgtb_false (a b : Q) : Qgtb a b = false <-> (a <= b)%Q.
Proof.
  split.
  - intros Hf. apply Qnot_lt_le. intros Hlt. apply Qgtb_true in Hlt. congruence.
  - intros Hle. destruct (Qgtb a b) eqn:Hg; [|done].
    apply Qgtb_true in Hg. exfalso. by apply (Qle_not_lt _ _ Hle).
Qed.

(** The first column is as wide as the widest rounded name, and at least
    as wide as it was. *)
Lemma first_column_len_max (rows : list (string * list string)) (start : Q) :
  let w := first_column_len rows start in
  (start <= w)%Q
  /\ (forall r, r ∈ rows -> (inject_Z (city_len r.1) <= w)%Q)
  /\ (w = start \/ exists r, r ∈ rows /\ w = inject_Z (city_len r.1)).
Proof.
  revert start. induction rows as [|r rows IH]; intros start; simpl.
  { split; [apply Qle_refl|]. split; [|by left].
    intros r Hr. by apply elem_of_nil in Hr. }
  unfold first_column_len. simpl. fold (first_column_len rows).
  destruct (Qgtb (inject_Z (city_len r.1)) start) eqn:Hg.
  - destruct (IH (inject_Z (city_len r.1))) as (H1 & H2 & H3).
    apply Qgtb_true in Hg. split; [|split].
    + eapply Qle_trans; [apply Qlt_le_weak, Hg | exact H1].
    + intros r' Hr'. apply elem_of_cons in Hr' as [->|Hr']; [exact H1 | by apply H2].
    + right. destruct H3 as [H3|(r' & Hr' & H3)].
      * exists r. split; [apply list_elem_of_here | done].
      * exists r'. split; [by apply list_elem_of_further | done].
  - destruct (IH start) as (H1 & H2 & H3).
    apply Qgtb_false in Hg. split; [done|split].
    + intros r' Hr'. apply elem_of_cons in Hr' as [->|Hr']; [|by apply H2].
      by eapply Qle_trans.
    + destruct H3 as [H3|(r' & Hr' & H3)]; [by left|].
      right. exists r'. split; [by apply list_elem_of_further | done].
Qed.

Lemma widen_Some v dl :
  exists v', widen (Some v) dl = Some v' /\ v <= v'
             /\ (v <> 0 -> v' = Z.max v dl).
Proof.
  unfold widen. destruct (v =? 0) eqn:Hv.
  - rewrite Z.ltb_irrefl. exists v. split; [done|]. split; [lia|].
    apply Z.eqb_eq in Hv. lia.
  - destruct (v <? dl) eqn:Hlt.
    + apply Z.ltb_lt in Hlt. exists dl. split; [done|]. split; lia.
    + apply Z.ltb_ge in Hlt. exists v. split; [done|]. split; lia.
Qed.

Lemma district_column_len_cons k r rows start :
  district_column_len k (r :: rows) start
  = district_column_len k rows
      match r.2 !! k with
      | Some d => widen start (Z.of_nat (String.length d))
      | None => start
      end.
Proof. reflexivity. Qed.

(** With no empty district name, the entry of a column is the length of the
    longest district written in it. *)
Lemma district_column_len_max (k : nat) (rows : list (string * list string))
    (start : option Z) :
  (forall r d, r ∈ rows -> r.2 !! k = Some d -> 1 <= Z.of_nat (String.length d)) ->
  (forall v, start = Some v -> 1 <= v) ->
  match district_column_len k rows start with
  | None => start = None /\ forall r, r ∈ rows -> r.2 !! k = None
  | Some w =>
      1 <= w
      /\ (start = Some w
          \/ exists r d, r ∈ rows /\ r.2 !! k = Some d
                         /\ w = Z.of_nat (String.length d))
      /\ (forall v, start = Some v -> v <= w)
      /\ (forall r d, r ∈ rows -> r.2 !! k = Some d ->
            Z.of_nat (String.length d) <= w)
  end.
Proof.
  revert start. induction rows as [|r rows IH]; intros start Hlen Hstart.
  { unfold district_column_len. simpl. destruct start as [w|].
    - split; [by apply Hstart|]. split; [by left|].
      split; [intros v [= ->]; lia|].
      intros r d Hr. by apply elem_of_nil in Hr.
    - split; [done|]. intros r Hr. by apply elem_of_nil in Hr. }
  rewrite district_column_len_cons.
  assert (Hlen' : forall r' d, r' ∈ rows -> r'.2 !! k = Some d ->
                    1 <= Z.of_nat (String.length d)).
  { intros r' d Hr'. apply Hlen. by apply list_elem_of_further. }
  destruct (r.2 !! k) as [d|] eqn:Hd.
  - assert (Hd1 : 1 <= Z.of_nat (String.length d)).
    { apply (Hlen r d); [apply list_elem_of_here | done]. }
    assert (Hw : exists v', widen start (Z.of_nat (String.length d)) = Some v'
                   /\ 1 <= v' /\ Z.of_nat (String.length d) <= v'
                   /\ (forall v, start = Some v -> v <= v')
                   /\ (start = Some v' \/ v' = Z.of_nat (String.length d))).
    { destruct start as [v|].
      - destruct (widen_Some v (Z.of_nat (String.length d)))
          as (v' & Hv' & Hle & Hmax).
        pose proof (Hstart v eq_refl). exists v'. rewrite Hv'.
        rewrite Hmax by lia. split; [done|]. split; [lia|]. split; [lia|].
        split; [intros ? [= <-]; lia|].
        destruct (Z.max_spec v (Z.of_nat (String.length d))) as [[? ->]|[? ->]].
        + by right.
        + by left.
      - exists (Z.of_nat (String.length d)). simpl. split; [done|].
        split; [lia|]. split; [lia|]. split; [done|]. by right. }
    destruct Hw as (v' & -> & Hv1 & Hdv & Hsv & Hsrc).
    assert (Hs : forall v, Some v' = Some v -> 1 <= v) by (by intros ? [= <-]).
    specialize (IH (Some v') Hlen' Hs).
    destruct (district_column_len k rows (Some v')) as [w|].
    + destruct IH as (Hw1 & Hwsrc & Hwge & Hwall).
      pose proof (Hwge v' eq_refl) as Hv'w.
      split; [done|]. split; [|split].
      * destruct Hwsrc as [[= ->]|(r' & d' & Hr' & Hd' & ->)].
        -- destruct Hsrc as [->| ->]; [by left|].
           right. exists r, d. split; [apply list_elem_of_here | done].
        -- right. exists r', d'. split; [by apply list_elem_of_further | done].
      * intros v Hv. pose proof (Hsv v Hv). lia.
      * intros r' d' Hr' Hd'. apply elem_of_cons in Hr' as [->|Hr'].
        -- rewrite Hd in Hd'. injection Hd' as <-. lia.
        -- by apply (Hwall r').
    + destruct IH as [Hbad _]. done.
  - specialize (IH start Hlen' Hstart).
    destruct (district_column_len k rows start) as [w|].
    + destruct IH as (Hw1 & Hwsrc & Hwge & Hwall).
      split; [done|]. split; [|split; [done|]].
      * destruct Hwsrc as [->|(r' & d' & Hr' & Hd' & ->)]; [by left|].
        right. exists r', d'. split; [by apply list_elem_of_further | done].
      * intros r' d' Hr' Hd'. apply elem_of_cons in Hr' as [->|Hr'].
        -- congruence.
        -- by apply (Hwall r').
    + destruct IH as [-> Hnone]. split; [done|].
      intros r' Hr'. apply elem_of_cons in Hr' as [->|Hr']; [done | by apply Hnone].
Qed.

(** ** Rounded width of a name *)

(** [round(n * 1.2)] is [n * 1.2] rounded to the nearest integer; no tie
    occurs. *)
Lemma py_round_scaled m :
  0 <= m -> py_round (inject_Z m * (12 # 10)) = (6 * m + 2) / 5.
Proof.
  intros Hm. unfold py_round.
  assert (Hfloor : Qfloor (inject_Z m * (12 # 10)) = (m * 12) / 10) by reflexivity.
  rewrite Hfloor.
  assert (Hcmp : (inject_Z m * (12 # 10) - inject_Z (m * 12 / 10) ?= 1 # 2)%Q
                 = (((m * 12) mod 10) * 2 ?= 10)).
  { unfold Qcompare, Qminus, Qplus, Qopp, Qmult, inject_Z. simpl.
    change (Z.pos (1 * 10)) with 10. change (Z.pos (1 * 10 * 1)) with 10.
    f_equal. rewrite Z.mod_eq by lia. lia. }
  rewrite Hcmp.
  assert (Hmod : (m * 12) mod 10 = 2 * ((m * 6) mod 5)).
  { replace (m * 12) with (2 * (m * 6)) by lia. change 10 with (2 * 5).
    by rewrite Z.mul_mod_distr_l by lia. }
  assert (Hdiv : (m * 12) / 10 = (m * 6) / 5).
  { replace (m * 12) with (2 * (m * 6)) by lia. change 10 with (2 * 5).
    by rewrite Z.div_mul_cancel_l by lia. }
  rewrite Hmod, Hdiv.
  destruct (Z.compare_spec (2 * ((m * 6) mod 5) * 2) 10) as [Heq|Hlt|Hgt].
  - exfalso. lia.
  - Z.div_mod_to_equations. lia.
  - Z.div_mod_to_equations. lia.
Qed.

Lemma city_len_formula n :
  city_len n = (6 * Z.of_nat (String.length n) + 2) / 5.
Proof. unfold city_len. apply py_round_scaled. lia. Qed.

(** ** Widths of a rendered sheet *)

(** What the loop over the sorted cities leaves in [column_dimensions]. *)
Lemma render_sheet_widths region cities rows :
  city_rows cities rows ->
  exists sh,
    render_sheet region (PList cities) = Ok sh
    /\ column_width sh !! "A"
       = Some (first_column_len (sorted_rows rows) (12 # 10))
    /\ forall k letter,
         get_column_letter (2 + Z.of_nat k) = Ok letter ->
         column_width sh !! letter
         = inject_Z <$> district_column_len k (sorted_rows rows) None.
Proof.
  intros Hrows.
  destruct (render_sheet_run region cities rows Hrows)
    as (sorted & st' & Hsort & Hsorted & Hrun & Hsheet).
  destruct (write_cities_spec sorted (sorted_rows rows) Hsorted
              (render_start region) (render_start_inv region))
    as (st'' & Hrun' & Hinv & _ & _ & _ & _ & Hmax & Hlens).
  rewrite Hrun in Hrun'. injection Hrun' as <-.
  destruct Hinv as (_ & _ & _ & HwidthA & Hwidths).
  exists (sheet st'). split; [exact Hsheet|]. split.
  - rewrite HwidthA, Hmax. reflexivity.
  - intros k letter Hletter. rewrite Hwidths.
    + by rewrite (Hlens k letter Hletter).
    + intros ->.
      pose proof (get_column_letter_inj _ _ _ Hletter get_column_letter_1). lia.
Qed.

Lemma elem_of_sorted_rows rows r : r ∈ sorted_rows rows <-> r ∈ rows.
Proof. by rewrite sorted_rows_perm. Qed.

(** Width of the first column: the largest [round(1.2 * len(name))] over
    the cities of the sheet, and 1.2 at least; [round(1.2 * n)] is
    [(6 n + 2) div 5]. *)
Theorem first_column_width :
  forall (region : string) (cities : list pyval)
         (rows : list (string * list string)),
    city_rows cities rows ->
    exists (sh : Sheet) (w : Q),
      render_sheet region (PList cities) = Ok sh
      /\ column_width sh !! "A" = Some w
      /\ (12 # 10 <= w)%Q
      /\ (forall n ds, (n, ds) ∈ rows ->
            (inject_Z ((6 * Z.of_nat (String.length n) + 2) / 5) <= w)%Q)
      /\ (w = 12 # 10
          \/ exists n ds, (n, ds) ∈ rows
               /\ w = inject_Z ((6 * Z.of_nat (String.length n) + 2) / 5)).
Proof.
  intros region cities rows Hrows.
  destruct (render_sheet_widths region cities rows Hrows) as (sh & Hrun & HA & _).
  destruct (first_column_len_max (sorted_rows rows) (12 # 10)) as (H1 & H2 & H3).
  exists sh, (first_column_len (sorted_rows rows) (12 # 10)).
  split; [done|]. split; [done|]. split; [done|]. split.
  - intros n ds Hin. rewrite <- city_len_formula.
    apply (H2 (n, ds)). by apply elem_of_sorted_rows.
  - destruct H3 as [H3|([n ds] & Hin & H3)]; [by left|].
    right. exists n, ds. split; [by apply elem_of_sorted_rows|].
    by rewrite <- city_len_formula.
Qed.

Lemma first_column_width_witness :
  exists sh : Sheet,
    render_sheet "Riyadh" (PList [sample_city_b; sample_city_a]) = Ok sh
    /\ column_width sh !! "A" = Some (inject_Z 7).
Proof.
  destruct (first_column_width "Riyadh" [sample_city_b; sample_city_a]
              sample_rows sample_city_rows)
    as (sh & w & Hrun & Hw & _).
  exists sh. split; [exact Hrun|].
  rewrite Hw. vm_compute in Hrun. injection Hrun as <-.
  vm_compute in Hw. injection Hw as <-. reflexivity.
Defined.

(** Width of a district column when no district name is empty: the length
    of the longest district written at that position, over all the cities of
    the sheet; a column in which no city has a district has no width set. *)
Theorem district_column_width :
  forall (region : string) (cities : list pyval)
         (rows : list (string * list string)),
    city_rows cities rows ->
    (forall n ds d, (n, ds) ∈ rows -> d ∈ ds -> d <> "") ->
    exists sh : Sheet,
      render_sheet region (PList cities) = Ok sh
      /\ forall (k : nat) (letter : string),
           get_column_letter (2 + Z.of_nat k) = Ok letter ->
           match column_width sh !! letter with
           | None => forall n ds, (n, ds) ∈ rows -> ds !! k = None
           | Some w =>
               (exists n ds d, (n, ds) ∈ rows /\ ds !! k = Some d
                  /\ w = inject_Z (Z.of_nat (String.length d)))
               /\ forall n ds d, (n, ds) ∈ rows -> ds !! k = Some d ->
                    (inject_Z (Z.of_nat (String.length d)) <= w)%Q
           end.
Proof.
  intros region cities rows Hrows Hnonempty.
  destruct (render_sheet_widths region cities rows Hrows) as (sh & Hrun & _ & Hw).
  exists sh. split; [exact Hrun|]. intros k letter Hletter.
  rewrite (Hw k letter Hletter).
  assert (Hlen : forall r d, r ∈ sorted_rows rows -> r.2 !! k = Some d ->
                   1 <= Z.of_nat (String.length d)).
  { intros [n ds] d Hin Hd. rewrite elem_of_sorted_rows in Hin. simpl in Hd.
    assert (d <> "") as Hne.
    { apply (Hnonempty n ds); [exact Hin|]. by eapply list_elem_of_lookup_2. }
    destruct d; [done | simpl; lia]. }
  assert (Hstart : forall v : Z, None = Some v -> 1 <= v) by done.
  pose proof (district_column_len_max k (sorted_rows rows) None Hlen Hstart)
    as Hmax.
  destruct (district_column_len k (sorted_rows rows) None) as [w|]; simpl.
  - destruct Hmax as (_ & Hsrc & _ & Hall). split.
    + destruct Hsrc as [|([n ds] & d & Hin & Hd & ->)]; [done|].
      exists n, ds, d. split; [by apply elem_of_sorted_rows | done].
    + intros n ds d Hin Hd. rewrite <- Zle_Qle.
      apply (Hall (n, ds)); [by apply elem_of_sorted_rows | done].
  - destruct Hmax as [_ Hnone].
    intros n ds Hin. apply (Hnone (n, ds)). by apply elem_of_sorted_rows.
Qed.

Lemma district_column_width_witness :
  exists sh : Sheet,
    render_sheet "Riyadh" (PList [sample_city_b; sample_city_a]) = Ok sh
    /\ column_width sh !! "B" = Some (inject_Z 6)
    /\ column_width sh !! "D" = Some (inject_Z 6)
    /\ column_width sh !! "E" = None.
Proof.
  destruct (district_column_width "Riyadh" [sample_city_b; sample_city_a]
              sample_rows sample_city_rows) as (sh & Hrun & _).
  - intros n ds d Hin Hd. unfold sample_rows in Hin.
    repeat (apply elem_of_cons in Hin as [[= -> ->]|Hin];
            [repeat (apply elem_of_cons in Hd as [->|Hd]; [done|]);
             by apply elem_of_nil in Hd|]).
    by apply elem_of_nil in Hin.
  - exists sh. split; [exact Hrun|].
    vm_compute in Hrun. injection Hrun as <-. repeat split; reflexivity.
Defined.

Lemma district_column_len_stuck k rows :
  district_column_len k rows (Some 0) = Some 0.
Proof.
  induction rows as [|r rows IH]; [done|].
  rewrite district_column_len_cons. destruct (r.2 !! k); [|done].
  unfold widen. simpl. by rewrite Z.ltb_irrefl.
Qed.

(** The default of [district_column_lens.get(col_letter, 0) or district_len]
    takes a stored 0 for a missing entry: once an empty district name is the
    first one written in a column, the column keeps the width 0 whatever
    longer names follow in it. *)
Theorem district_column_width_stuck_at_zero :
  forall (region : string) (cities : list pyval)
         (rows : list (string * list string))
         (n : string) (ds : list string) (k : nat) (letter : string),
    city_rows cities rows ->
    sorted_rows rows !! 0%nat = Some (n, ds) ->
    ds !! k = Some "" ->
    get_column_letter (2 + Z.of_nat k) = Ok letter ->
    exists sh : Sheet,
      render_sheet region (PList cities) = Ok sh
      /\ column_width sh !! letter = Some (inject_Z 0).
Proof.
  intros region cities rows n ds k letter Hrows Hfirst Hk Hletter.
  destruct (render_sheet_widths region cities rows Hrows) as (sh & Hrun & _ & Hw).
  exists sh. split; [exact Hrun|]. rewrite (Hw k letter Hletter).
  destruct (sorted_rows rows) as [|r rest]; [done|].
  simpl in Hfirst. injection Hfirst as ->.
  rewrite district_column_len_cons. simpl. rewrite Hk. simpl.
  by rewrite district_column_len_stuck.
Qed.

Lemma district_column_width_stuck_at_zero_witness :
  exists sh : Sheet,
    render_sheet "Hail" (PList [sample_city_y; sample_city_x]) = Ok sh
    /\ cells sh !! (2, 2) = Some {| value := PStr "Old"; font := DEFAULT_FONT |}
    /\ column_width sh !! "B" = Some (inject_Z 0).
Proof.
  destruct (district_column_width_stuck_at_zero
              "Hail" [sample_city_y; sample_city_x] sample_rows_xy
              "X" [""; "South"] 0%nat "B") as (sh & Hrun & Hw).
  - unfold city_rows, sample_rows_xy.
    repeat (constructor;
            [split; [split; reflexivity|];
             split; [vm_compute; reflexivity|];
             split; [repeat (constructor; [vm_compute; reflexivity|]); constructor
                    | simpl; lia]
            |]).
    constructor.
  - reflexivity.
  - reflexivity.
  - reflexivity.
  - exists sh. split; [exact Hrun|]. split; [|exact Hw].
    vm_compute in Hrun. injection Hrun as <-. reflexivity.
Defined.

(** ** Widths only grow *)

Lemma lens_grow (ds : list string) (lens lens' : gmap string Z) :
  (forall k d letter,
     ds !! k = Some d ->
     get_column_letter (2 + Z.of_nat k) = Ok letter ->
     lens' !! letter = widen (lens !! letter) (Z.of_nat (String.length d))) ->
  (forall letter,
     (forall k, (k < length ds)%nat ->
        get_column_letter (2 + Z.of_nat k) <> Ok letter) ->
     lens' !! letter = lens !! letter) ->
  forall letter v,
    lens !! letter = Some v ->
    exists v', lens' !! letter = Some v' /\ v <= v'.
Proof.
  intros Hlens Hother letter v Hv.
  set (j := column_index_from_string letter).
  destruct (decide (2 <= j < 2 + Z.of_nat (length ds))) as [Hin|Hout].
  - destruct (get_column_letter j) as [l|e] eqn:Hj.
    + destruct (decide (l = letter)) as [->|Hne].
      * destruct (lookup_lt_is_Some_2 ds (Z.to_nat (j - 2))) as [d Hd]; [lia|].
        rewrite (Hlens (Z.to_nat (j - 2)) d letter Hd).
        -- rewrite Hv. destruct (widen_Some v (Z.of_nat (String.length d)))
             as (v' & Hv' & Hle & _). by exists v'.
        -- rewrite <- Hj. f_equal. lia.
      * rewrite Hother; [by exists v|]. intros k Hk Hbad.
        pose proof (get_column_letter_index _ _ Hbad) as Hidx.
        fold j in Hidx. rewrite <- Hidx in Hbad. congruence.
    + rewrite Hother; [by exists v|]. intros k Hk Hbad.
      pose proof (get_column_letter_index _ _ Hbad) as Hidx.
      fold j in Hidx. rewrite <- Hidx in Hbad. congruence.
  - rewrite Hother; [by exists v|]. intros k Hk Hbad.
    pose proof (get_column_letter_index _ _ Hbad) as Hidx.
    fold j in Hidx. lia.
Qed.

Lemma write_city_grows st city n ds st' :
  render_inv st -> city_row city n ds -> fits_row n ds ->
  write_city st city = Ok st' ->
  render_inv st'
  /\ forall letter w,
       column_width (sheet st) !! letter = Some w ->
       exists w', column_width (sheet st') !! letter = Some w' /\ (w <= w')%Q.
Proof.
  intros Hinv Hrow Hfits Hrun.
  destruct (write_city_spec st city n ds Hinv Hrow Hfits) as
    (st1 & Hrun1 & Hinv1 & _ & _ & _ & _ & _ & Hmax1 & Hlens1 & Hlother1).
  rewrite Hrun in Hrun1. injection Hrun1 as <-.
  split; [exact Hinv1|]. intros letter w Hw.
  destruct Hinv as (_ & _ & _ & HwidthA & Hwidths).
  destruct Hinv1 as (_ & _ & _ & HwidthA' & Hwidths').
  destruct (decide (letter = "A")) as [->|Hne].
  - rewrite HwidthA in Hw. injection Hw as <-.
    exists (city_column_max_len st'). split; [done|]. rewrite Hmax1.
    destruct (Qgtb (inject_Z (city_len n)) (city_column_max_len st)) eqn:Hg.
    + apply Qgtb_true in Hg. by apply Qlt_le_weak.
    + apply Qle_refl.
  - rewrite Hwidths in Hw by done.
    destruct (district_column_lens st !! letter) as [v|] eqn:Hv; [|done].
    simpl in Hw. injection Hw as <-.
    destruct (lens_grow ds _ _ Hlens1 Hlother1 letter v Hv) as (v' & Hv' & Hle).
    exists (inject_Z v'). rewrite Hwidths', Hv' by done.
    split; [done|]. by rewrite <- Zle_Qle.
Qed.

Lemma write_cities_grows (cities : list pyval) (rows : list (string * list string)) :
  city_rows cities rows ->
  forall st st',
    render_inv st ->
    write_cities st cities = Ok st' ->
    render_inv st'
    /\ forall letter w,
         column_width (sheet st) !! letter = Some w ->
         exists w', column_width (sheet st') !! letter = Some w' /\ (w <= w')%Q.
Proof.
  induction 1 as [|city [n ds] cities rows [Hrow Hfits] _ IH]; intros st st' Hinv.
  { simpl. intros [= <-]. split; [done|]. intros letter w Hw. exists w.
    split; [done | apply Qle_refl]. }
  cbn [write_cities]. destruct (write_city st city) as [st1|] eqn:Hrun1; [|done].
  cbn [rbind]. intros Hrun.
  destruct (write_city_grows st city n ds st1 Hinv Hrow Hfits Hrun1)
    as [Hinv1 Hgrow1].
  destruct (IH st1 st' Hinv1 Hrun) as [Hinv' Hgrow].
  split; [exact Hinv'|]. intros letter w Hw.
  destruct (Hgrow1 letter w Hw) as (w1 & Hw1 & Hle1).
  destruct (Hgrow letter w1 Hw1) as (w' & Hw' & Hle).
  exists w'. split; [done|]. by eapply Qle_trans.
Qed.

Lemma write_cities_app st cities1 cities2 :
  write_cities st (cities1 ++ cities2)
  = let? st1 := write_cities st cities1 in write_cities st1 cities2.
Proof.
  revert st. induction cities1 as [|city cities1 IH]; intros st; simpl; [done|].
  destruct (write_city st city) as [st1|]; cbn [rbind]; [apply IH | done].
Qed.

(** Between any two points of the loop over the cities of a sheet, no column
    gets narrower: a width that was set is still set later, and is at least
    as large. *)
Theorem column_widths_never_shrink :
  forall (region : string) (cities : list pyval)
         (rows : list (string * list string)),
    city_rows cities rows ->
    exists sorted : list pyval,
      sort_cities (PList cities) = Ok sorted
      /\ forall (earlier later : list pyval),
           sorted = earlier ++ later ->
           exists st1 st2,
             write_cities (render_start region) earlier = Ok st1
             /\ write_cities st1 later = Ok st2
             /\ render_sheet region (PList cities) = Ok (sheet st2)
             /\ forall letter w,
                  column_width (sheet st1) !! letter = Some w ->
                  exists w', column_width (sheet st2) !! letter = Some w'
                             /\ (w <= w')%Q.
Proof.
  intros region cities rows Hrows.
  destruct (render_sheet_run region cities rows Hrows)
    as (sorted & st' & Hsort & Hsorted & Hrun & Hsheet).
  exists sorted. split; [exact Hsort|]. intros earlier later ->.
  apply Forall2_app_inv_l in Hsorted as (rows1 & rows2 & H1 & H2 & _).
  rewrite write_cities_app in Hrun.
  destruct (write_cities (render_start region) earlier) as [st1|] eqn:Hrun1;
    [|done].
  cbn [rbind] in Hrun.
  destruct (write_cities_grows earlier rows1 H1 _ _ (render_start_inv region) Hrun1)
    as [Hinv1 _].
  destruct (write_cities_grows later rows2 H2 _ _ Hinv1 Hrun) as [_ Hgrow].
  exists st1, st'. by repeat split.
Qed.

Lemma column_widths_never_shrink_witness :
  exists st1 st2,
    write_cities (render_start "Riyadh") [sample_city_a] = Ok st1
    /\ write_cities st1 [sample_city_b] = Ok st2
    /\ forall letter w,
         column_width (sheet st1) !! letter = Some w ->
         exists w', column_width (sheet st2) !! letter = Some w' /\ (w <= w')%Q.
Proof.
  destruct (column_widths_never_shrink "Riyadh" [sample_city_b; sample_city_a]
              sample_rows sample_city_rows) as (sorted & Hsort & Hall).
  vm_compute in Hsort. injection Hsort as <-.
  destruct (Hall [sample_city_a] [sample_city_b] eq_refl)
    as (st1 & st2 & H1 & H2 & _ & Hgrow).
  by exists st1, st2.
Defined.

(** ** The cells of a sheet are those of its rows *)

Lemma write_city_row st city n ds st' :
  render_inv st -> city_row city n ds -> fits_row n ds ->
  write_city st city = Ok st' ->
  forall c,
    cells (sheet st') !! (count st, c) <> None ->
    c = 1 \/ 2 <= c < 2 + Z.of_nat (length ds).
Proof.
  intros (Hcount & Hfresh & _) [Hname Hdists] (Hn & Hds & Hfit) Hrun c Hc.
  unfold write_city in Hrun. rewrite Hname in Hrun. cbn [rbind] in Hrun.
  rewrite sheet_cell_text in Hrun by (done || lia). cbn [rbind py_len] in Hrun.
  rewrite get_column_letter_1 in Hrun. cbn [rbind] in Hrun.
  rewrite Hdists in Hrun. cbn [rbind py_iter] in Hrun.
  set (sheet3 := if Qgtb _ _ then _ else _) in Hrun.
  assert (Hcells3 : forall c', c' <> 1 -> cells sheet3 !! (count st, c') = None).
  { intros c' Hc'. unfold sheet3.
    assert (forall s : Sheet,
              cells (if Qgtb
                          (inject_Z (py_round (inject_Z (Z.of_nat (String.length n))
                                               * (12 # 10))))
                          (city_column_max_len st)
                     then set_width s "A"
                            (if Qgtb
                                  (inject_Z (py_round
                                     (inject_Z (Z.of_nat (String.length n))
                                      * (12 # 10))))
                                  (city_column_max_len st)
                             then inject_Z (py_round
                                    (inject_Z (Z.of_nat (String.length n))
                                     * (12 # 10)))
                             else city_column_max_len st)
                     else s) = cells s) as -> by (intros s; by destruct (Qgtb _ _)).
    unfold set_font. simpl. rewrite lookup_alter_ne by (intros [=]; lia).
    rewrite lookup_insert_ne by (intros [=]; lia). apply Hfresh. lia. }
  destruct (write_districts_spec ds (count st) 2 sheet3 (district_column_lens st))
    as (sheet' & lens' & Hrun' & _ & _ & Hrest & _);
    [lia | lia | lia | done |].
  rewrite Hrun' in Hrun. cbn [rbind fst snd] in Hrun. injection Hrun as <-.
  cbn [sheet] in Hc.
  destruct (decide (c = 1)) as [|Hne]; [by left|]. right.
  destruct (decide (2 <= c < 2 + Z.of_nat (length ds))) as [|Hout]; [done|].
  exfalso. apply Hc. rewrite Hrest by lia. by apply Hcells3.
Qed.

Lemma write_cities_cells (cities : list pyval) (rows : list (string * list string)) :
  city_rows cities rows ->
  forall st st',
    render_inv st ->
    write_cities st cities = Ok st' ->
    forall r c,
      cells (sheet st') !! (r, c) <> None ->
      cells (sheet st) !! (r, c) <> None
      \/ exists i n ds,
           rows !! i = Some (n, ds)
           /\ r = count st + Z.of_nat i
           /\ (c = 1 \/ 2 <= c < 2 + Z.of_nat (length ds)).
Proof.
  induction 1 as [|city [n ds] cities rows [Hrow Hfits] _ IH]; intros st st' Hinv.
  { simpl. intros [= <-] r c Hc. by left. }
  cbn [write_cities]. destruct (write_city st city) as [st1|] eqn:Hrun1; [|done].
  cbn [rbind]. intros Hrun r c Hc.
  destruct (write_city_spec st city n ds Hinv Hrow Hfits) as
    (st1' & Hrun1' & Hinv1 & Hcount1 & _ & _ & _ & Hother & _).
  rewrite Hrun1 in Hrun1'. injection Hrun1' as <-.
  destruct (IH st1 st' Hinv1 Hrun r c Hc) as [Hold|(i & n' & ds' & Hi & Hr & Hcol)].
  - destruct (decide (r = count st)) as [->|Hne].
    + right. exists 0%nat, n, ds. split; [done|]. split; [lia|].
      by apply (write_city_row st city n ds st1).
    + left. by rewrite <- Hother.
  - right. exists (S i), n', ds'. split; [done|]. split; [lia | done].
Qed.

(** A sheet holds no cell besides those of its rows: the name of the city of
    the row in column 1, and one cell for each of its districts from column
    2 on.  So a city without districts takes column 1 of its row only, and
    the sheet of a region without cities has no cell. *)
Theorem sheet_has_no_other_cell :
  forall (region : string) (cities : list pyval)
         (rows : list (string * list string)),
    city_rows cities rows ->
    exists sh : Sheet,
      render_sheet region (PList cities) = Ok sh
      /\ forall r c cell,
           cells sh !! (r, c) = Some cell ->
           exists i n ds,
             sorted_rows rows !! i = Some (n, ds)
             /\ r = 1 + Z.of_nat i
             /\ (c = 1 \/ 2 <= c < 2 + Z.of_nat (length ds)).
Proof.
  intros region cities rows Hrows.
  destruct (render_sheet_run region cities rows Hrows)
    as (sorted & st' & Hsort & Hsorted & Hrun & Hsheet).
  exists (sheet st'). split; [exact Hsheet|]. intros r c cell Hcell.
  destruct (write_cities_cells sorted (sorted_rows rows) Hsorted
              _ _ (render_start_inv region) Hrun r c) as [Hold|H]; [congruence|..].
  - exfalso. by apply Hold.
  - exact H.
Qed.

Lemma sheet_has_no_other_cell_witness :
  exists sh : Sheet,
    render_sheet "Riyadh" (PList [sample_city_b; sample_city_a]) = Ok sh
    /\ cells sh !! (2, 3) = None
    /\ cells sh !! (3, 1) = None.
Proof.
  destruct (sheet_has_no_other_cell "Riyadh" [sample_city_b; sample_city_a]
              sample_rows sample_city_rows) as (sh & Hrun & Hall).
  exists sh. split; [exact Hrun|]. split.
  - destruct (cells sh !! (2, 3)) as [cell|] eqn:Hc; [|done].
    destruct (Hall 2 3 cell Hc) as (i & n & ds & Hi & Hr & Hcol).
    assert (i = 1%nat) as -> by lia. vm_compute in Hi. injection Hi as <- <-.
    simpl in Hcol. lia.
  - destruct (cells sh !! (3, 1)) as [cell|] eqn:Hc; [|done].
    destruct (Hall 3 1 cell Hc) as (i & n & ds & Hi & Hr & _).
    assert (i = 2%nat) as -> by lia. vm_compute in Hi. discriminate Hi.
Defined.

(** ** Merging by id when the ids are texts *)

Lemma dict_set_keeps k k' v (d : list (string * list pyval)) :
  is_Some (dict_get k d) -> is_Some (dict_get k (dict_set k' v d)).
Proof.
  intros H. destruct (decide (k' = k)) as [->|Hne].
  - rewrite dict_get_set_eq. eauto.
  - by rewrite dict_get_set_ne.
Qed.

Lemma merge_inner_keeps (b : bool) k (cd acc : list (string * list pyval)) :
  is_Some (dict_get k acc) ->
  is_Some (dict_get k
    (fold_left (fun merged kv => if b then dict_set kv.1 kv.2 merged else merged)
               cd acc)).
Proof.
  revert acc. induction cd as [|[k' v'] cd IH]; intros acc H; simpl; [done|].
  apply IH. destruct b; [by apply dict_set_keeps | done].
Qed.

Lemma merge_inner_adds k v (cd acc : list (string * list pyval)) :
  (k, v) ∈ cd ->
  is_Some (dict_get k
    (fold_left (fun merged kv => dict_set kv.1 kv.2 merged) cd acc)).
Proof.
  revert acc. induction cd as [|[k' v'] cd IH]; intros acc H; simpl.
  { by apply elem_of_nil in H. }
  apply elem_of_cons in H as [[= <- <-]|H].
  - apply (merge_inner_keeps true). rewrite dict_get_set_eq. eauto.
  - by apply IH.
Qed.

Lemma merge_results_has_acc k v r results (acc : list (string * list pyval)) :
  r ∈ results -> (k, v) ∈ r ->
  is_Some (dict_get k
    (fold_left
       (fun merged city_dist =>
          fold_left
            (fun merged kv =>
               if negb (bool_decide (length city_dist = 0%nat))
               then dict_set kv.1 kv.2 merged else merged)
            city_dist merged)
       results acc)).
Proof.
  revert acc. induction results as [|r' results IH]; intros acc Hr Hin.
  { by apply elem_of_nil in Hr. }
  simpl. apply elem_of_cons in Hr as [->|Hr]; [|by apply IH].
  assert (Hnow : is_Some (dict_get k
            (fold_left
               (fun merged kv =>
                  if negb (bool_decide (length r' = 0%nat))
                  then dict_set kv.1 kv.2 merged else merged) r' acc))).
  { rewrite bool_decide_eq_false_2.
    - simpl. by eapply merge_inner_adds.
    - destruct r'; [by apply elem_of_nil in Hin | done]. }
  revert Hnow. generalize (fold_left
               (fun merged kv =>
                  if negb (bool_decide (length r' = 0%nat))
                  then dict_set kv.1 kv.2 merged else merged) r' acc).
  clear. induction results as [|r results IH]; intros acc H; simpl; [done|].
  apply IH. by apply merge_inner_keeps.
Qed.

(** The key of every gathered result is in the merged dictionary. *)
Lemma merge_results_has k v r results :
  r ∈ results -> (k, v) ∈ r -> is_Some (dict_get k (merge_results results)).
Proof. apply merge_results_has_acc. Qed.

(** After a successful merge a city whose id is not a [str] has no
    district, whatever its request returned; a city whose id is a [str]
    (the only id of its region with that [str] form) has the Arabic names
    its own request returned, or none if the request returned none. *)
Theorem merge_gives_text_ids_their_own_districts :
  forall (fetch : pyval -> text) (mapping res : list (string * list City)),
    outcome (get_and_merge_districts fetch (Some mapping)) = Ok res ->
    Forall2
      (fun rc rc' =>
         rc'.1 = rc.1
         /\ Forall2
              (fun c c' =>
                 name c' = name c /\ id c' = id c
                 /\ ((forall s, id c <> PStr s) -> districts c' = [])
                 /\ (forall s,
                       id c = PStr s ->
                       (forall c0, c0 ∈ rc.2 -> py_str (id c0) = s ->
                                   id c0 = PStr s) ->
                       exists r,
                         outcome (get_districts fetch (id c) true) = Ok r
                         /\ districts c'
                            = match r with
                              | [] => []
                              | kv :: _ => kv.2
                              end))
              rc.2 rc'.2)
      mapping res.
Proof.
  intros fetch mapping res Hrun. apply get_and_merge_districts_Ok in Hrun.
  eapply Forall2_impl; [exact Hrun|].
  intros [region cities] [region' cities']. simpl. intros [-> Hmerge].
  split; [done|].
  apply merge_region_Ok in Hmerge as (results & Hres & Hall).
  eapply Forall2_elem_of_impl; [exact Hall|].
  intros c c' Hc (dists & Hget & ->). simpl. split; [done|]. split; [done|].
  split.
  - intros Hnot. destruct (id c) as [| | | s | |]; simpl in Hget;
      try (by injection Hget as <-); try done.
    by destruct (Hnot s).
  - intros s Hs Hunique.
    destruct (Forall2_elem_of_l _ _ _ _ Hres Hc) as (r & Hr & Hown).
    exists r. split; [exact Hown|].
    rewrite Hs in Hget. simpl in Hget.
    destruct (dict_get s (merge_results results)) as [v|] eqn:Hv;
      simpl in Hget; injection Hget as <-.
    + (* the key holds what a request with the same id returned *)
      apply merge_results_get in Hv as (r0 & Hr0 & Hin0).
      destruct (Forall2_elem_of_r _ _ _ _ Hres Hr0) as (c0 & Hc0 & Hrun0).
      destruct (get_districts_Ok _ _ _ _ Hrun0) as [->|(names0 & -> & _)].
      { by apply elem_of_nil in Hin0. }
      apply list_elem_of_singleton in Hin0. injection Hin0 as Hkey <-.
      assert (id c0 = id c) as Heq.
      { rewrite Hs. by apply Hunique. }
      rewrite Heq in Hrun0. rewrite Hrun0 in Hown. by injection Hown as <-.
    + (* the key is absent: the own request returned nothing *)
      destruct (get_districts_Ok _ _ _ _ Hown) as [->|(names & -> & _)]; [done|].
      exfalso.
      assert (His : is_Some (dict_get s (merge_results results))).
      { apply (merge_results_has s names _ results Hr).
        rewrite Hs. simpl. apply list_elem_of_here. }
      rewrite Hv in His. by destruct His.
Qed.

Lemma merge_gives_text_ids_their_own_districts_witness :
  Forall2
    (fun rc rc' =>
       rc'.1 = rc.1
       /\ Forall2
            (fun c c' =>
               name c' = name c /\ id c' = id c
               /\ ((forall s, id c <> PStr s) -> districts c' = [])
               /\ (forall s,
                     id c = PStr s ->
                     (forall c0, c0 ∈ rc.2 -> py_str (id c0) = s ->
                                 id c0 = PStr s) ->
                     exists r,
                       outcome (get_districts Sample.two_districts (id c) true)
                       = Ok r
                       /\ districts c'
                          = match r with
                            | [] => []
                            | kv :: _ => kv.2
                            end))
            rc.2 rc'.2)
    [("Riyadh", [ {| name := PStr "ar-three"; id := PInt 3; districts := [] |};
                  {| name := PStr "ar-seven"; id := PStr "7"; districts := [] |} ])]
    [("Riyadh", [ {| name := PStr "ar-three"; id := PInt 3; districts := [] |};
                  {| name := PStr "ar-seven"; id := PStr "7";
                     districts := [PStr "a7"; PStr "b7"] |} ])].
Proof.
  apply (merge_gives_text_ids_their_own_districts Sample.two_districts).
  vm_compute. reflexivity.
Defined.

(** ** The saved workbook *)








Lemma render_regions_Raise (items : list (string * pyval)) :
  forall idx workbook e,
    rmap (fun rc => render_sheet rc.1 rc.2) items = Raise e ->
    render_regions idx items workbook = Raise e.
Proof.
  induction items as [|[region cities] items IH]; intros idx workbook e; simpl.
  { done. }
  destruct (render_sheet region cities) as [sh|]; cbn [rbind]; [|done].
  destruct (rmap _ items) as [sheets|e'] eqn:Hrest; cbn [rbind]; [done|].
  intros [= <-]. by apply IH.
Qed.



(** ** The data of a run are Python objects *)
















(** ** When the city fetcher succeeds, and the order of its regions *)

Lemma catalog_contains_true regions city fk :
  py_getitem city "fkEmirateID" = Ok fk ->
  catalog_contains fk regions = Ok true ->
  exists r, catalog_getitem fk regions = Ok r
            /\ region_of regions city = Some r.
Proof.
  intros Hfk. unfold region_of. rewrite Hfk.
  destruct fk as [| | | k | |]; simpl; try done.
  unfold dict_mem, dict_getitem. destruct (dict_get k regions) as [r|]; [|done].
  intros _. by exists r.
Qed.

Lemma catalog_contains_false regions city fk :
  py_getitem city "fkEmirateID" = Ok fk ->
  catalog_contains fk regions = Ok false ->
  py_hashable fk = true /\ region_of regions city = None.
Proof.
  intros Hfk. unfold region_of. rewrite Hfk.
  destruct fk as [| | | k | |]; simpl; try done.
  unfold dict_mem. by destruct (dict_get k regions).
Qed.

Lemma catalog_contains_hashable regions fk b :
  catalog_contains fk regions = Ok b -> py_hashable fk = true.
Proof. by destruct fk. Qed.

Lemma get_cities_loop_Ok regions use_arabic (data : list pyval) :
  forall acc m,
    outcome (get_cities_loop regions use_arabic data acc) = Ok m ->
    Forall (listed_city regions use_arabic) data
    /\ m.*1 = first_seen_from acc.*1 (omap (region_of regions) data).
Proof.
  induction data as [|city rest IH]; intros acc m; simpl.
  { intros [= <-]. split; [constructor | done]. }
  intros Hrun. rewrite outcome_bind in Hrun.
  unfold lift at 1, outcome at 1 in Hrun. simpl in Hrun.
  destruct (py_getitem city "fkEmirateID") as [fk|] eqn:Hfk; [|done].
  rewrite outcome_bind in Hrun.
  unfold lift at 1, outcome at 1 in Hrun. simpl in Hrun.
  destruct (catalog_contains fk regions) as [[|]|] eqn:Hknown; [| |done].
  - destruct (catalog_contains_true _ _ _ Hfk Hknown) as (r & Hr & Hreg).
    rewrite outcome_bind in Hrun.
    unfold lift at 1, outcome at 1 in Hrun. simpl in Hrun. rewrite Hr in Hrun.
    rewrite outcome_bind in Hrun.
    unfold lift at 1, outcome at 1 in Hrun. simpl in Hrun.
    destruct (py_getitem city (if use_arabic then "ArabicName" else "EnglishName"))
      as [city_name|] eqn:Hname; [|done].
    rewrite outcome_bind in Hrun.
    unfold lift at 1, outcome at 1 in Hrun. simpl in Hrun.
    destruct (py_getitem city "pkCityID") as [pk|] eqn:Hpk; [|done].
    apply IH in Hrun as [Hrest Hkeys]. split.
    + constructor; [|done]. split.
      * exists fk. split; [done|]. by eapply catalog_contains_hashable.
      * intros _. unfold city_data. rewrite Hname. cbn [rbind]. rewrite Hpk.
        cbn [rbind]. eauto.
    + rewrite Hkeys, Hreg. unfold first_seen_from. simpl.
      f_equal. destruct (dict_get r acc) as [cities|] eqn:Hget.
      * assert (r ∈ acc.*1) as Hin by (apply dict_get_is_Some; by rewrite Hget).
        rewrite dict_set_keys_old by done. by rewrite decide_True.
      * assert (r ∉ acc.*1) as Hin by (by apply dict_get_None).
        rewrite dict_set_keys_new by done. by rewrite decide_False.
  - destruct (catalog_contains_false _ _ _ Hfk Hknown) as (Hhash & Hreg).
    rewrite outcome_bind in Hrun.
    change (outcome (emit (LogMissingRegion city))) with (Ok tt) in Hrun.
    cbv beta iota in Hrun.
    apply IH in Hrun as [Hrest Hkeys]. split.
    + constructor; [|done]. split.
      * by exists fk.
      * rewrite Hreg. by intros [? ?].
    + by rewrite Hkeys, Hreg.
Qed.

Lemma get_cities_list response regions use_arabic data :
  json_loads response = Ok (PList data) ->
  outcome (get_cities response regions use_arabic)
  = match outcome (get_cities_loop regions use_arabic data []) with
    | Ok m => Ok (Some m)
    | Raise e => Raise e
    end.
Proof.
  intros Hloads. unfold get_cities. destruct response as [| |d]; try done.
  simpl text_nonempty. cbv iota. rewrite Hloads.
  unfold bind, lift, emit, ret, outcome. simpl.
  by destruct (get_cities_loop regions use_arabic data []) as [l [m|e]].
Qed.

(** On a listing that is a list, [get_cities] returns a mapping exactly when
    every entry is an object with a hashable [fkEmirateID] and, if the
    catalog knows it, with a name in the chosen language and a [pkCityID];
    otherwise one entry makes the whole call raise, and no mapping is
    returned. *)
Theorem get_cities_succeeds_iff_entries_well_formed :
  forall (response : text) (regions : list (string * string))
         (use_arabic : bool) (data : list pyval),
    json_loads response = Ok (PList data) ->
    ((exists m, outcome (get_cities response regions use_arabic) = Ok (Some m))
     <-> Forall (listed_city regions use_arabic) data)
    /\ (~ Forall (listed_city regions use_arabic) data ->
        exists e, outcome (get_cities response regions use_arabic) = Raise e).
Proof.
  intros response regions use_arabic data Hloads.
  rewrite (get_cities_list _ _ _ _ Hloads).
  assert (Hiff : (exists m,
                    match outcome (get_cities_loop regions use_arabic data []) with
                    | Ok m0 => Ok (Some m0)
                    | Raise e => Raise e
                    end = Ok (Some m))
                 <-> Forall (listed_city regions use_arabic) data).
  { split.
    - intros [m Hm].
      destruct (outcome (get_cities_loop regions use_arabic data [])) as [m'|]
        eqn:Hloop; [|done].
      by apply get_cities_loop_Ok in Hloop as [? _].
    - intros Hall.
      destruct (get_cities_loop_spec regions use_arabic data Hall [])
        as (m & Hrun & _).
      exists m. by rewrite Hrun. }
  split; [exact Hiff|].
  intros Hbad.
  destruct (outcome (get_cities_loop regions use_arabic data [])) as [m|e] eqn:Hloop.
  - exfalso. apply Hbad, Hiff. by exists m.
  - by exists e.
Qed.

Lemma get_cities_succeeds_iff_entries_well_formed_witness :
  (exists m, outcome (get_cities Sample.listing REGIONS true) = Ok (Some m))
  /\ exists e,
       outcome (get_cities
                  (JsonText (JArray [JObject [("pkCityID", JString "1")]]))
                  REGIONS true) = Raise e.
Proof.
  split.
  - destruct (get_cities_succeeds_iff_entries_well_formed
                Sample.listing REGIONS true sample_listing_data eq_refl)
      as [Hiff _].
    apply Hiff. unfold sample_listing_data. simpl.
    repeat (constructor;
            [split; [eexists; split; reflexivity
                    | intros _; eexists; reflexivity] |]).
    constructor.
  - destruct (get_cities_succeeds_iff_entries_well_formed
                (JsonText (JArray [JObject [("pkCityID", JString "1")]]))
                REGIONS true [PDict [("pkCityID", PStr "1")]] eq_refl)
      as [_ Hbad].
    apply Hbad. intros Hall. apply Forall_cons in Hall as [[(fk & Hfk & _) _] _].
    discriminate Hfk.
Defined.

(** The regions of the mapping that [get_cities] returns are in the order in
    which the listing first names them (through the catalog): this is the
    order of the sheets of the workbook. *)
Theorem get_cities_regions_in_listing_order :
  forall (response : text) (regions : list (string * string))
         (use_arabic : bool) (data : list pyval)
         (m : list (string * list City)),
    json_loads response = Ok (PList data) ->
    outcome (get_cities response regions use_arabic) = Ok (Some m) ->
    m.*1 = first_seen (omap (region_of regions) data).
Proof.
  intros response regions use_arabic data m Hloads.
  rewrite (get_cities_list _ _ _ _ Hloads).
  destruct (outcome (get_cities_loop regions use_arabic data [])) as [m'|]
    eqn:Hloop; [|done].
  intros [= <-]. by apply get_cities_loop_Ok in Hloop as [_ ?].
Qed.

Lemma get_cities_regions_in_listing_order_witness :
  exists m,
    outcome (get_cities Sample.listing REGIONS true) = Ok (Some m)
    /\ m.*1 = ["Riyadh"; "Makkah"].
Proof.
  destruct (outcome (get_cities Sample.listing REGIONS true)) as [[m|]|e] eqn:Hrun.
  - exists m. split; [done|].
    rewrite (get_cities_regions_in_listing_order
               Sample.listing REGIONS true sample_listing_data m eq_refl Hrun).
    reflexivity.
  - vm_compute in Hrun. discriminate Hrun.
  - vm_compute in Hrun. discriminate Hrun.
Defined.

(** ** When the catalog loader and the district fetcher fail *)

Lemma get_regions_loop_outcome (options : list Tag) :
  forall acc,
    match outcome (get_regions_loop options acc) with
    | Ok _ => Forall has_id options
    | Raise e => e = KeyError /\ ~ Forall has_id options
    end.
Proof.
  induction options as [|option rest IH]; intros acc.
  { simpl. constructor. }
  cbn [get_regions_loop]. unfold dict_getitem.
  destruct (dict_get "id" (tag_attrs option)) as [a|] eqn:Ha.
  - assert (Hid : has_id option) by (unfold has_id; by rewrite Ha).
    assert (Hstep : forall acc',
              match outcome (get_regions_loop rest acc') with
              | Ok _ => Forall has_id (option :: rest)
              | Raise e => e = KeyError /\ ~ Forall has_id (option :: rest)
              end).
    { intros acc'. specialize (IH acc').
      destruct (outcome (get_regions_loop rest acc')) as [r|e].
      - by constructor.
      - destruct IH as [-> Hbad]. split; [done|].
        intros Hall. apply Hbad. by apply Forall_cons in Hall as [_ ?]. }
    destruct (py_int a) as [region_id|e] eqn:Hint.
    + apply Hstep.
    + apply py_int_raises_ValueError in Hint as ->.
      rewrite outcome_bind. change (outcome (emit _)) with (Ok tt).
      cbv beta iota. apply Hstep.
  - simpl. split; [done|]. intros Hall.
    apply Forall_cons in Hall as [[a Ha'] _]. congruence.
Qed.

(** Parsing the snippet succeeds exactly when every option carries an [id]
    attribute; otherwise the loader raises [KeyError], which [get_regions]
    does not catch, and no catalog is returned. *)
Theorem get_regions_fails_iff_option_without_id :
  forall options : list Tag,
    ((exists regions,
        outcome (get_regions (Some (mkMarkup true options)) true) = Ok regions)
     <-> Forall has_id options)
    /\ (~ Forall has_id options ->
        outcome (get_regions (Some (mkMarkup true options)) true)
        = Raise KeyError).
Proof.
  intros options. unfold get_regions. simpl.
  pose proof (get_regions_loop_outcome options []) as H.
  destruct (outcome (get_regions_loop options [])) as [regions|e].
  - split; [|done]. split; [done|]. intros _. by exists regions.
  - destruct H as [-> Hbad]. split; [|done]. split; [|done].
    by intros [regions ?].
Qed.

(** [get_districts] returns (without raising) exactly when the response is
    JSON and either is an empty string, array or object, or is an array of
    objects that all have the name field of the chosen language.  A [null],
    a number or a boolean raises ([len] is taken for the log before the
    emptiness test), and so do a non-empty object and a non-empty string. *)
Theorem get_districts_succeeds_iff :
  forall (fetch : pyval -> text) (city_id : pyval) (use_arabic : bool),
    (exists r, outcome (get_districts fetch city_id use_arabic) = Ok r)
    <-> exists res,
          json_loads (fetch city_id) = Ok res
          /\ (py_len res = Ok 0%nat
              \/ exists items,
                   res = PList items
                   /\ Forall (fun district =>
                                exists v,
                                  py_getitem district
                                    (district_name_key use_arabic) = Ok v)
                             items).
Proof.
  intros fetch city_id use_arabic. unfold get_districts.
  rewrite outcome_bind. unfold lift at 1, outcome at 1. simpl.
  destruct (json_loads (fetch city_id)) as [res|e] eqn:Hloads.
  2:{ split; [by intros [? ?] | by intros (? & ? & _)]. }
  rewrite outcome_bind. unfold lift at 1, outcome at 1. simpl.
  destruct (py_len res) as [n|e] eqn:Hlen.
  2:{ split; [by intros [? ?]|]. intros (res' & [= <-] & [H|(items & -> & _)]).
      - congruence.
      - done. }
  rewrite outcome_bind. change (outcome (emit _)) with (Ok tt). cbv beta iota.
  destruct (py_truthy res) eqn:Htruthy.
  - fold (district_name_key use_arabic).
    destruct res as [| | | s | items | d]; try done.
    + (* a non-empty string: its characters have no field *)
      destruct s as [|c s]; [done|].
      rewrite outcome_bind. unfold lift at 1, outcome at 1. simpl.
      split; [by intros [? ?]|].
      intros (res' & [= <-] & [H|(items & H & _)]); done.
    + (* an array *)
      rewrite outcome_bind. unfold lift at 1, outcome at 1. simpl.
      rewrite outcome_bind, outcome_for_each_lift.
      split.
      * intros [r Hr]. exists (PList items). split; [done|]. right.
        exists items. split; [done|].
        destruct (rmap _ items) as [names|] eqn:Hnames; [|done].
        clear -Hnames. revert names Hnames.
        induction items as [|x items IH]; intros names; simpl; [constructor|].
        destruct (py_getitem x _) as [v|] eqn:Hx; cbn [rbind]; [|done].
        destruct (rmap _ items) as [vs|] eqn:Hvs; cbn [rbind]; [|done].
        intros _. constructor; [by exists v | by eapply IH].
      * intros (res' & [= <-] & [H|(items' & [= <-] & Hall)]).
        { simpl in H. injection H as H. destruct items; done. }
        assert (exists names,
                  rmap (fun district =>
                          py_getitem district (district_name_key use_arabic))
                       items = Ok names) as [names ->].
        { clear -Hall. induction Hall as [|x items [v Hv] _ [names IH]].
          - by exists [].
          - exists (v :: names). simpl. rewrite Hv. cbn [rbind]. by rewrite IH. }
        eauto.
    + (* a non-empty object: its keys have no field *)
      destruct d as [|[k v] d]; [done|].
      rewrite outcome_bind. unfold lift at 1, outcome at 1. simpl.
      split; [by intros [? ?]|].
      intros (res' & [= <-] & [H|(items & H & _)]); done.
  - split; [|by eauto]. intros _. exists res. split; [done|]. left.
    destruct res as [| | | s | items | d]; try done; simpl in *.
    + destruct s; done.
    + destruct items; done.
    + destruct d; done.
Qed.

Lemma get_regions_fails_iff_option_without_id_witness :
  (exists regions,
     outcome (get_regions (Some (mkMarkup true Sample.options_mixed)) true)
     = Ok regions)
  /\ outcome (get_regions (Some (mkMarkup true Sample.options_lacking_id)) true)
     = Raise KeyError.
Proof.
  split.
  - destruct (get_regions_fails_iff_option_without_id Sample.options_mixed)
      as [Hiff _].
    apply Hiff. unfold Sample.options_mixed.
    repeat (constructor; [by eexists|]). constructor.
  - destruct (get_regions_fails_iff_option_without_id
                Sample.options_lacking_id) as [_ Hbad].
    apply Hbad. intros Hall.
    apply Forall_cons in Hall as [_ Hall].
    apply Forall_cons in Hall as [_ Hall].
    apply Forall_cons in Hall as [[a Ha] _]. discriminate Ha.
Defined.

Lemma get_districts_succeeds_iff_witness :
  (exists r, outcome (get_districts Sample.two_districts (PStr "4") true) = Ok r)
  /\ ~ (exists r,
          outcome (get_districts (fun _ => JsonText JNull) (PStr "4") true)
          = Ok r).
Proof.
  split.
  - apply (get_districts_succeeds_iff Sample.two_districts (PStr "4") true).
    eexists. split; [reflexivity|]. right. eexists. split; [reflexivity|].
    repeat (constructor; [by eexists|]). constructor.
  - intros H.
    apply (get_districts_succeeds_iff (fun _ => JsonText JNull) (PStr "4") true)
      in H as (res & [= <-] & [H|(items & H & _)]); discriminate H.
Defined.

(** ** When the exporter raises *)

Lemma writable_text_cell (sh : Sheet) (row column : Z) (v : pyval) :
  1 <= row -> 1 <= column ->
  ((exists sh' n, sheet_cell sh row column v = Ok sh' /\ py_len v = Ok n)
   <-> writable_text v).
Proof.
  intros Hrow Hcol. unfold sheet_cell, writable_text.
  assert ((row <? 1) || (column <? 1) = false) as ->.
  { apply orb_false_intro; lia. }
  destruct v as [| b | z | s | l | d]; simpl.
  - split; [by intros (? & ? & _ & ?) | by intros (? & ? & ? & _)].
  - split; [by intros (? & ? & _ & ?) | by intros (? & ? & ? & _)].
  - split; [by intros (? & ? & _ & ?) | by intros (? & ? & ? & _)].
  - destruct (check_string s) as [stored|e] eqn:Hcheck; cbn [rbind].
    + split; [intros _; by exists s, stored | intros _; eauto].
    + split; [by intros (? & ? & ? & _) | intros (? & ? & [= <-] & ?); congruence].
  - split; [by intros (? & ? & ? & _) | by intros (? & ? & ? & _)].
  - split; [by intros (? & ? & ? & _) | by intros (? & ? & ? & _)].
Qed.

Lemma get_column_letter_Ok_iff j :
  (exists letter, get_column_letter j = Ok letter) <-> 1 <= j <= 18278.
Proof.
  split; [|apply get_column_letter_Ok].
  intros [letter H]. unfold get_column_letter in H.
  destruct ((1 <=? j) && (j <=? 18278)) eqn:Hb; [|done].
  apply andb_prop in Hb. lia.
Qed.

Lemma write_districts_Ok_iff (items : list pyval) :
  forall row col_idx sh lens,
    1 <= row -> 1 <= col_idx <= 18279 ->
    ((exists written, write_districts row col_idx items sh lens = Ok written)
     <-> Forall writable_text items
         /\ col_idx + Z.of_nat (length items) <= 18279).
Proof.
  induction items as [|district rest IH]; intros row col_idx sh lens Hrow Hcol.
  { simpl. split; [intros _; split; [constructor | lia] | eauto]. }
  cbn [write_districts length].
  pose proof (writable_text_cell sh row col_idx district Hrow) as Hcell.
  pose proof (get_column_letter_Ok_iff col_idx) as Hletter.
  destruct (sheet_cell sh row col_idx district) as [sh1|e1] eqn:Hsh1;
    cbn [rbind].
  2:{ split; [by intros [? ?]|]. intros [Hall _].
      apply Forall_cons in Hall as [Hd _].
      apply Hcell in Hd as (? & ? & ? & _); [done | lia]. }
  destruct (get_column_letter col_idx) as [letter|e2]; cbn [rbind].
  2:{ split; [by intros [? ?]|]. intros [_ Hlen].
      assert (1 <= col_idx <= 18278) as Hin by lia.
      apply Hletter in Hin as [? ?]. done. }
  assert (Hle : col_idx <= 18278).
  { assert (exists l, Ok letter = Ok l) as Hex by eauto.
    apply Hletter in Hex. lia. }
  destruct (py_len district) as [n|e3] eqn:Hn; cbn [rbind].
  2:{ split; [by intros [? ?]|]. intros [Hall _].
      apply Forall_cons in Hall as [Hd _].
      apply Hcell in Hd as (? & ? & _ & ?); [done | lia]. }
  assert (Hd : writable_text district).
  { apply Hcell; [lia | eauto]. }
  assert (Hrest : forall sh' lens',
            (exists written,
               write_districts row (col_idx + 1) rest sh' lens' = Ok written)
            <-> Forall writable_text (district :: rest)
                /\ col_idx + Z.of_nat (S (length rest)) <= 18279).
  { intros sh' lens'. rewrite (IH row (col_idx + 1) sh' lens') by lia.
    rewrite Forall_cons. split.
    - intros [? ?]. split; [done | lia].
    - intros [[_ ?] ?]. split; [done | lia]. }
  match goal with |- context [if ?b then _ else _] => destruct b end;
    apply Hrest.
Qed.

Lemma write_city_Ok_iff (st : Render) (city : pyval) :
  1 <= count st ->
  ((exists st', write_city st city = Ok st') <-> writable_city city)
  /\ forall st', write_city st city = Ok st' -> count st' = count st + 1.
Proof.
  intros Hcount. unfold write_city, writable_city.
  rewrite get_column_letter_1.
  pose proof (writable_text_cell (sheet st) (count st) 1) as Hcell.
  destruct (py_getitem city "name") as [city_name|e] eqn:Hname; cbn [rbind].
  2:{ split; [|done].
      split; [by intros [? ?] | by intros [(? & ? & _) _]]. }
  specialize (Hcell city_name Hcount ltac:(lia)).
  destruct (sheet_cell (sheet st) (count st) 1 city_name) as [sh1|e]
    eqn:Hsh1; cbn [rbind].
  2:{ split; [|done]. split; [by intros [? ?]|].
      intros [(? & [= <-] & Hw) _]. by apply Hcell in Hw as (? & ? & ? & _). }
  destruct (py_len city_name) as [n|e] eqn:Hn; cbn [rbind].
  2:{ split; [|done]. split; [by intros [? ?]|].
      intros [(? & [= <-] & Hw) _]. by apply Hcell in Hw as (? & ? & _ & ?). }
  assert (Hw : writable_text city_name) by (apply Hcell; eauto).
  destruct (py_getitem city "districts") as [ds|e] eqn:Hds; cbn [rbind].
  2:{ split; [|done].
      split; [by intros [? ?] | by intros [_ (? & ? & ? & _)]]. }
  destruct (py_iter ds) as [items|e] eqn:Hitems; cbn [rbind].
  2:{ split; [|done]. split; [by intros [? ?]|].
      intros [_ (? & ? & [= <-] & ? & _)]. congruence. }
  match goal with
  | |- context [write_districts ?r ?c ?i ?s ?l] =>
      pose proof (write_districts_Ok_iff i r c s l Hcount ltac:(lia)) as Hwd;
      destruct (write_districts r c i s l) as [written|e] eqn:Hrun
  end; cbn [rbind].
  - split; [|by intros st' [= <-]].
    split; [|by eauto]. intros _. split; [by eauto|].
    exists ds, items.
    destruct Hwd as [Hwd _]. destruct Hwd as [Hall Hlen]; [by eauto|].
    repeat split; [done.. | lia].
  - split; [|done]. split; [by intros [? ?]|].
    intros [_ (ds' & items' & [= <-] & Hit & Hall & Hlen)].
    rewrite Hitems in Hit. injection Hit as <-.
    destruct Hwd as [_ Hwd]. destruct Hwd as [? ?]; [|done].
    split; [done | lia].
Qed.

Lemma write_cities_Ok_iff (cities : list pyval) :
  forall st,
    1 <= count st ->
    ((exists st', write_cities st cities = Ok st')
     <-> Forall writable_city cities).
Proof.
  induction cities as [|city rest IH]; intros st Hcount; simpl.
  { split; [constructor | eauto]. }
  destruct (write_city_Ok_iff st city Hcount) as [Hiff Hnext].
  rewrite Forall_cons.
  destruct (write_city st city) as [st1|e]; cbn [rbind].
  - rewrite (IH st1) by (rewrite (Hnext st1 eq_refl); lia).
    split; [|tauto]. intros Hall. split; [|done]. apply Hiff. eauto.
  - split; [by intros [? ?]|]. intros [Hc _].
    apply Hiff in Hc as [? ?]. done.
Qed.

Lemma writable_city_key (city : pyval) :
  writable_city city ->
  exists n, (let? districts := get_districts_or_empty city in
             let? len := py_len districts in
             Ok (len, city)) = Ok (n, city).
Proof.
  intros [_ (ds & items & Hds & Hitems & _)].
  destruct city as [| | | | |d]; try done. simpl in *.
  unfold dict_getitem in Hds.
  destruct (dict_get "districts" d) as [v|]; [|done].
  injection Hds as ->. simpl.
  destruct ds; try done; simpl; eauto.
Qed.

Lemma sort_cities_perm (cities sorted : list pyval) :
  sort_cities (PList cities) = Ok sorted -> sorted ≡ₚ cities.
Proof.
  unfold sort_cities. cbn [py_iter rbind].
  destruct (rmap _ cities) as [keyed|] eqn:Hkeyed; cbn [rbind]; [|done].
  intros [= <-]. rewrite sorted_desc_perm.
  clear -Hkeyed. revert keyed Hkeyed.
  induction cities as [|x cities IH]; intros keyed; simpl.
  { by intros [= <-]. }
  destruct (get_districts_or_empty x) as [ds|]; cbn [rbind]; [|done].
  destruct (py_len ds) as [n|]; cbn [rbind]; [|done].
  destruct (rmap _ cities) as [k|]; cbn [rbind]; [|done].
  intros [= <-]. simpl. f_equiv. by apply IH.
Qed.

Lemma sort_cities_writable (cities : list pyval) :
  Forall writable_city cities ->
  exists sorted, sort_cities (PList cities) = Ok sorted.
Proof.
  intros Hall. unfold sort_cities. cbn [py_iter rbind].
  assert (exists keyed,
            rmap (fun x => let? districts := get_districts_or_empty x in
                           let? len := py_len districts in
                           Ok (len, x)) cities = Ok keyed) as [keyed ->].
  { induction Hall as [|city cities Hc _ [keyed IH]].
    - by exists [].
    - destruct (writable_city_key city Hc) as [n Hn].
      exists ((n, city) :: keyed). simpl. rewrite Hn. cbn [rbind].
      by rewrite IH. }
  cbn [rbind]. eauto.
Qed.

Lemma render_sheet_Ok_iff (region : string) (cities : list pyval) :
  (exists sh, render_sheet region (PList cities) = Ok sh)
  <-> Forall writable_city cities.
Proof.
  unfold render_sheet. rewrite get_column_letter_1. cbn [rbind].
  split.
  - intros [sh Hsh].
    destruct (sort_cities (PList cities)) as [sorted|] eqn:Hsort;
      cbn [rbind] in Hsh; [|done].
    apply sort_cities_perm in Hsort. rewrite <- Hsort.
    match type of Hsh with
    | context [write_cities ?st sorted] =>
        apply (write_cities_Ok_iff sorted st); [simpl; lia|];
        destruct (write_cities st sorted) as [st'|]; [eauto | done]
    end.
  - intros Hall.
    destruct (sort_cities_writable cities Hall) as [sorted Hsort].
    rewrite Hsort. cbn [rbind].
    apply sort_cities_perm in Hsort. rewrite <- Hsort in Hall.
    match goal with
    | |- context [write_cities ?st sorted] =>
        apply (write_cities_Ok_iff sorted st) in Hall as [st' ->];
        [|simpl; lia]
    end.
    cbn [rbind]. eauto.
Qed.

Lemma render_sheets_Ok_iff (regions : list (string * list pyval)) :
  (exists sheets,
     rmap (fun rc : string * pyval => render_sheet rc.1 rc.2)
          (region_lists regions) = Ok sheets)
  <-> Forall (fun rc => Forall writable_city rc.2) regions.
Proof.
  unfold region_lists.
  induction regions as [|[region cities] regions IH]; simpl.
  { split; [constructor | eauto]. }
  rewrite Forall_cons. simpl.
  pose proof (render_sheet_Ok_iff region cities) as Hsheet.
  destruct (render_sheet region (PList cities)) as [sh|e]; cbn [rbind].
  - destruct (rmap _ _) as [sheets|e]; cbn [rbind].
    + split; [|by eauto]. intros _. split; [apply Hsheet | apply IH]; eauto.
    + split; [by intros [? ?]|]. intros [_ Hall].
      apply IH in Hall as [? ?]. done.
  - split; [by intros [? ?]|]. intros [Hall _].
    apply Hsheet in Hall as [? ?]. done.
Qed.

(** On a document that maps regions to lists, [save_to_excel] saves a
    workbook only if every city of every region is writable.  One city
    whose name, or one of whose districts, is [None], a number, a list or an
    object, or holds an illegal character, or a city without [name] or
    [districts], makes it raise: then no workbook is saved, whichever the
    region and the row of the city. *)
Theorem save_to_excel_raises_on_unwritable_city :
  forall (fs : gmap string File) (save_path json_source : string) (t : text)
         (regions : list (string * list pyval)),
    fs !! json_source = Some (TextFile t) ->
    json_loads t = Ok (PDict (region_lists regions)) ->
    (forall fs',
       save_to_excel fs save_path json_source = Ok fs' ->
       Forall (fun rc => Forall writable_city rc.2) regions)
    /\ (forall region cities city,
          (region, cities) ∈ regions -> city ∈ cities ->
          ~ writable_city city ->
          exists e, save_to_excel fs save_path json_source = Raise e).
Proof.
  intros fs save_path json_source t regions Hfile Hloads.
  assert (Hneeds : forall fs',
            save_to_excel fs save_path json_source = Ok fs' ->
            Forall (fun rc => Forall writable_city rc.2) regions).
  { intros fs'. rewrite <- render_sheets_Ok_iff.
    destruct (rmap (fun rc : string * pyval => render_sheet rc.1 rc.2)
                   (region_lists regions)) as [sheets|e] eqn:Hsheets.
    - eauto.
    - unfold save_to_excel. rewrite Hfile, Hloads. cbn [rbind py_items].
      by rewrite (render_regions_Raise _ 1 new_workbook e Hsheets). }
  split; [exact Hneeds|].
  intros region cities city Hregion Hcity Hbad.
  destruct (save_to_excel fs save_path json_source) as [fs'|e] eqn:Hrun;
    [|eauto].
  exfalso. apply Hbad.
  pose proof (Hneeds fs' eq_refl) as Hall.
  rewrite Forall_forall in Hall. specialize (Hall _ Hregion). simpl in Hall.
  rewrite Forall_forall in Hall. by apply Hall.
Qed.

Lemma save_to_excel_raises_on_unwritable_city_witness :
  Forall (fun rc => Forall writable_city rc.2) sample_regions
  /\ exists e,
       save_to_excel (sample_fs nameless_regions) "out.xlsx" "in.json"
       = Raise e.
Proof.
  split.
  - destruct (save_to_excel_raises_on_unwritable_city
                (sample_fs sample_regions) "out.xlsx" "in.json"
                (json_dumps (PDict (region_lists sample_regions)))
                sample_regions
                (lookup_insert_eq ∅ _ _) eq_refl) as [Hneeds _].
    by eapply Hneeds; vm_compute.
  - destruct (save_to_excel_raises_on_unwritable_city
                (sample_fs nameless_regions) "out.xlsx" "in.json"
                (json_dumps (PDict (region_lists nameless_regions)))
                nameless_regions
                (lookup_insert_eq ∅ _ _) eq_refl) as [_ Hbad].
    apply (Hbad "Riyadh" [sample_city_b; nameless_city] nameless_city).
    + apply list_elem_of_here.
    + apply list_elem_of_further, list_elem_of_here.
    + intros [(city_name & [= <-] & (s & stored & Hs & _)) _]. discriminate Hs.
Defined.
